(** * Tabbable combobox: a shallow embedding of the widget logic

    The development models the three focus-management approaches of the
    repository:

    - [src/utils/keyboard.ts]            key table, [shouldPreventDefault]
    - [src/types/combobox]               [ComboboxOption], [ComboboxProps]
    - [src/utils/focus]                  [isTabbable], [getTabbableElements],
                                         [getClosestForm], [createTreeWalker]
    - [approach1/useFocusable.ts],
      [approach1/FocusableContext.tsx],
      [approach1/Combobox1.tsx]          tree-walker focus context
    - [approach2/useFocusManagement]     selector-query focus hook
    - [approach3/Combobox3.tsx]          aria-activedescendant widget

    In the widgets a string is a sequence of UTF-16 code units below 256
    (the Latin-1 range), on which [toLowerCase] works unit by unit; the
    filter is also given over any kind of code unit and any lower-casing
    function ([TextFilter]).  The highlighted index
    is an integer ([Z]) because the source can store [-1] in it.  DOM elements
    are referred to by identity ([ElemRef]); the document is a rose tree. *)

From Stdlib Require Import ZArith List String Ascii Bool Lia Permutation.

From stdpp Require Import base gmap strings list.
Import ListNotations.

Open Scope string_scope.

(* ------------------------------------------------------------------ *)
(** ** JavaScript string primitives used by the source *)

Module JsString.

(** The capital letters among the code units below 256: A to Z (65-90),
    A-grave to O-diaeresis (192-214) and O-stroke to Thorn (216-222).  The
    multiplication sign (215) lies between the last two ranges and has no
    case. *)
Definition isUpper (c : ascii) : bool :=
  let n := nat_of_ascii c in
  ((65 <=? n)%nat && (n <=? 90)%nat)
  || ((192 <=? n)%nat && (n <=? 214)%nat)
  || ((216 <=? n)%nat && (n <=? 222)%nat).

(** The small letter of each of these capitals is 32 code units further
    on; every other unit below 256 is its own lower case (sharp s, 223, and
    y-diaeresis, 255, are small letters already). *)
Definition toLowerChar (c : ascii) : ascii :=
  if isUpper c then ascii_of_nat (nat_of_ascii c + 32) else c.

(** [String.prototype.toLowerCase].  No code unit below 256 has a
    lower-case form that depends on its neighbours or takes more than one
    unit, so the conversion goes unit by unit. *)
Fixpoint toLowerCase (s : string) : string :=
  match s with
  | EmptyString => EmptyString
  | String c s' => String (toLowerChar c) (toLowerCase s')
  end.

(** [s.startsWith(p)] *)
Fixpoint startsWith (s p : string) {struct p} : bool :=
  match p with
  | EmptyString => true
  | String a p' =>
      match s with
      | EmptyString => false
      | String b s' => Ascii.eqb a b && startsWith s' p'
      end
  end.

(** [String.prototype.includes]: does [needle] occur somewhere in [s]? *)
Fixpoint includes (s needle : string) : bool :=
  startsWith s needle ||
  match s with
  | EmptyString => false
  | String _ s' => includes s' needle
  end.

(** Truthiness of a string value: only the empty string is falsy. *)
Definition truthy (s : string) : bool :=
  match s with EmptyString => false | String _ _ => true end.

End JsString.

(** [xs[i]] for a JavaScript number [i] holding an integer: [undefined]
    (here [None]) below zero and past the end. *)
Definition js_index {A : Type} (xs : list A) (i : Z) : option A :=
  if (i <? 0)%Z then None else xs !! Z.to_nat i.

(* ------------------------------------------------------------------ *)
(** ** [src/utils/keyboard.ts] *)

Module KEYS.
Definition ARROW_UP := "ArrowUp".
Definition ARROW_DOWN := "ArrowDown".
Definition ENTER := "Enter".
Definition ESCAPE := "Escape".
Definition TAB := "Tab".
Definition SPACE := " ".
End KEYS.

(** [Array.prototype.includes] on strings *)
Definition array_includes (xs : list string) (x : string) : bool :=
  existsb (String.eqb x) xs.

Definition isNavigationKey (key : string) : bool :=
  array_includes
    [KEYS.ARROW_UP; KEYS.ARROW_DOWN; KEYS.ENTER; KEYS.ESCAPE; KEYS.TAB; KEYS.SPACE]
    key.

Definition shouldPreventDefault (key : string) : bool :=
  let preventKeys := [KEYS.ARROW_UP; KEYS.ARROW_DOWN; KEYS.ENTER; KEYS.ESCAPE] in
  array_includes preventKeys key.

(* ------------------------------------------------------------------ *)
(** ** [src/types/combobox] *)

Record ComboboxOption := mkOption {
  id : string;
  label : string;
  value : string
}.

(** [ComboboxProps].  Optional members are [option]s.  The two callbacks are
    functions of the caller; the model records whether one was supplied and
    logs each invocation in the effect trace of the handler. *)
Record ComboboxProps := mkProps {
  options : list ComboboxOption;
  value_prop : option string;          (* value?: string *)
  placeholder : option string;
  onSelectionChange : bool;            (* onSelectionChange?: supplied *)
  onInputChange : bool;                (* onInputChange?: supplied *)
  className : option string;
  disabled : option bool
}.

(** The member names of the [ComboboxProps] interface, as declared. *)
Definition ComboboxProps_keys : list string :=
  ["options"; "value"; "placeholder"; "onSelectionChange"; "onInputChange";
   "className"; "disabled"].

(** [if (disabled)] *)
Definition isDisabled (P : ComboboxProps) : bool :=
  match disabled P with Some b => b | None => false end.

Record KeyboardEvent := mkKey {
  key : string;
  shiftKey : bool
}.

(* ------------------------------------------------------------------ *)
(** ** The document: a tree of elements

    An element is known by its identity ([ElemRef]); two references are
    [===] exactly when they are equal.  [attrs] is the attribute map read by
    [hasAttribute] and [getAttribute]; [tagName] is the lower-case local
    name; [isHTMLElement] answers [instanceof HTMLElement]. *)

Definition ElemRef := nat.

Record Element := mkElement {
  ref : ElemRef;
  tagName : string;
  attrs : gmap string string;
  isHTMLElement : bool
}.

Set Warnings "-register-all".
Inductive Node := El (e : Element) (children : list Node).
Set Warnings "register-all".

Definition elem (n : Node) : Element := match n with El e _ => e end.
Definition children (n : Node) : list Node := match n with El _ cs => cs end.

(** Document order of a subtree: the node itself, then its descendants. *)
Fixpoint preorder (n : Node) : list Element :=
  match n with
  | El e cs => e :: flat_map preorder cs
  end.

Definition descendants (n : Node) : list Element :=
  flat_map preorder (children n).

(** The subtree rooted at the element [r], searched in document order. *)
Fixpoint findNode (r : ElemRef) (n : Node) : option Node :=
  match n with
  | El e cs =>
      if Nat.eqb (ref e) r then Some n
      else (fix go (l : list Node) : option Node :=
              match l with
              | [] => None
              | c :: l' =>
                  match findNode r c with
                  | Some m => Some m
                  | None => go l'
                  end
              end) cs
  end.

(** The chain of elements from [n] down to [r] (both included). *)
Fixpoint pathTo (r : ElemRef) (n : Node) : option (list Element) :=
  match n with
  | El e cs =>
      if Nat.eqb (ref e) r then Some [e]
      else match (fix go (l : list Node) : option (list Element) :=
                    match l with
                    | [] => None
                    | c :: l' =>
                        match pathTo r c with
                        | Some p => Some p
                        | None => go l'
                        end
                    end) cs with
           | Some p => Some (e :: p)
           | None => None
           end
  end.

(** [document.body] is the root of the modelled tree. *)
Record Document := mkDocument { body : Node }.

Definition hasAttribute (e : Element) (name : string) : bool :=
  match attrs e !! name with Some _ => true | None => false end.

Definition getAttribute (e : Element) (name : string) : option string :=
  attrs e !! name.

Definition attrIs (e : Element) (name v : string) : bool :=
  match getAttribute e name with
  | Some w => String.eqb w v
  | None => false
  end.

(** [element.closest('form')]: the nearest inclusive ancestor that is a
    form; an element that is not in the document has none. *)
Definition closestForm (d : Document) (r : ElemRef) : option ElemRef :=
  match pathTo r (body d) with
  | Some p =>
      match List.find (fun e => String.eqb (tagName e) "form") (rev p) with
      | Some f => Some (ref f)
      | None => None
      end
  | None => None
  end.

(* ------------------------------------------------------------------ *)
(** ** [src/utils/focus] *)

(** [element.matches(TABBABLE_SELECTOR)], one disjunct per selector of the
    list that the source joins with commas. *)
Definition matches_TABBABLE_SELECTOR (e : Element) : bool :=
  (String.eqb (tagName e) "button" && negb (hasAttribute e "disabled"))
  || (String.eqb (tagName e) "input" && negb (hasAttribute e "disabled"))
  || (String.eqb (tagName e) "select" && negb (hasAttribute e "disabled"))
  || (String.eqb (tagName e) "textarea" && negb (hasAttribute e "disabled"))
  || (String.eqb (tagName e) "a" && hasAttribute e "href")
  || (hasAttribute e "tabindex" && negb (attrIs e "tabindex" "-1"))
  || attrIs e "contenteditable" "true".

Definition isTabbable (element : Element) : bool :=
  if hasAttribute element "disabled" then false
  else
    let tabIndex := getAttribute element "tabindex" in
    if match tabIndex with Some t => String.eqb t "-1" | None => false end
    then false
    else matches_TABBABLE_SELECTOR element.

(** [container.querySelectorAll(TABBABLE_SELECTOR)]: the matching
    descendants of the container, in document order. *)
Definition querySelectorAll_TABBABLE (container : Node) : list Element :=
  List.filter matches_TABBABLE_SELECTOR (descendants container).

Definition getTabbableElements (container : Node) : list ElemRef :=
  map ref (List.filter isTabbable (querySelectorAll_TABBABLE container)).

Definition getClosestForm (d : Document) (element : ElemRef) : option ElemRef :=
  closestForm d element.

(** The node an element reference denotes; [document.body] when the
    reference is the body or is not part of the modelled tree. *)
Definition nodeOf (d : Document) (r : ElemRef) : Node :=
  match findNode r (body d) with
  | Some n => n
  | None => body d
  end.

(* ------------------------------------------------------------------ *)
(** ** Component state, effects and the handler monad

    Both widgets declare the same three [useState] cells and the same
    [isTogglingRef].  A handler is a closure made by one render: it reads the
    state variables of that render, writes through the setters into the
    pending cells, and reads and writes refs in place.  Everything a handler
    does to the outside is logged as an [Effect]. *)

Record Cells := mkCells {
  isOpen : bool;
  inputValue : string;
  highlightedIndex : Z;
  isTogglingRef : bool
}.

Inductive Microtask := ResetToggling.

Inductive Effect :=
| PreventDefault                              (* e.preventDefault() *)
| Focus (target : ElemRef)                    (* element.focus() *)
| InputChange (v : string)                    (* onInputChange(v) *)
| SelectionChange (o : ComboboxOption)        (* onSelectionChange(o) *)
| QueueMicrotask (m : Microtask).             (* Promise.resolve().then(m) *)

Definition Act (A : Type) : Type := Cells -> A * Cells * list Effect.

#[global] Instance Act_ret : MRet Act := fun A a c => (a, c, []).
#[global] Instance Act_bind : MBind Act := fun A B f m c =>
  let '(a, c1, out1) := m c in
  let '(b, c2, out2) := f a c1 in
  (b, c2, (out1 ++ out2)%list).

Definition emit (e : Effect) : Act unit := fun c => (tt, c, [e]).
Definition skip : Act unit := mret tt.

Definition setIsOpen (b : bool) : Act unit := fun c =>
  (tt, mkCells b (inputValue c) (highlightedIndex c) (isTogglingRef c), []).
Definition setInputValue (v : string) : Act unit := fun c =>
  (tt, mkCells (isOpen c) v (highlightedIndex c) (isTogglingRef c), []).
Definition setHighlightedIndex (i : Z) : Act unit := fun c =>
  (tt, mkCells (isOpen c) (inputValue c) i (isTogglingRef c), []).
(** [setHighlightedIndex(prev => f(prev))] *)
Definition updateHighlightedIndex (f : Z -> Z) : Act unit := fun c =>
  (tt, mkCells (isOpen c) (inputValue c) (f (highlightedIndex c)) (isTogglingRef c), []).
(** the [prev] handed to an updater of [setIsOpen] *)
Definition pendingIsOpen : Act bool := fun c => (isOpen c, c, []).
Definition readIsTogglingRef : Act bool := fun c => (isTogglingRef c, c, []).
Definition writeIsTogglingRef (b : bool) : Act unit := fun c =>
  (tt, mkCells (isOpen c) (inputValue c) (highlightedIndex c) b, []).

(** [callback?.(arg)] *)
Definition optionalCall (supplied : bool) (e : Effect) : Act unit :=
  if supplied then emit e else skip.

Definition cellsAfter {A} (r : A * Cells * list Effect) : Cells := snd (fst r).
Definition effectsOf {A} (r : A * Cells * list Effect) : list Effect := snd r.

Definition isCallback (e : Effect) : bool :=
  match e with
  | InputChange _ | SelectionChange _ => true
  | _ => false
  end.
Definition isFocus (e : Effect) : bool :=
  match e with Focus _ => true | _ => false end.

Definition runMicrotask (m : Microtask) (c : Cells) : Cells :=
  match m with
  | ResetToggling => mkCells (isOpen c) (inputValue c) (highlightedIndex c) false
  end.

(** The microtask checkpoint that follows every event listener: the queued
    microtasks run in order. *)
Fixpoint microtaskCheckpoint (out : list Effect) (c : Cells) : Cells :=
  match out with
  | [] => c
  | QueueMicrotask m :: out' => microtaskCheckpoint out' (runMicrotask m c)
  | _ :: out' => microtaskCheckpoint out' c
  end.

(** What a render shows. *)
Record OptionView := mkOptionView {
  ov_id : option string;           (* id attribute of the option element *)
  ov_highlighted : bool;           (* index === highlightedIndex *)
  ov_text : string;                (* the label shown *)
  ov_option : ComboboxOption       (* the option its onClick selects *)
}.

Inductive PopupView :=
| NoOptions                               (* "No options available" *)
| OptionList (items : list OptionView).

Record View := mkView {
  aria_expanded : bool;
  aria_activedescendant : option string;
  input_value : string;
  input_disabled : bool;
  popup : option PopupView          (* None: no popup is rendered *)
}.


(** Events the browser delivers to a rendered widget. *)
Inductive DomEvent :=
| KeyDown (e : KeyboardEvent)
| Change (v : string)                 (* the input's text became [v] *)
| Click                               (* click on the input *)
| OptionClick (index : nat)           (* click on the popup's item [index] *)
| MouseDown (insideCombobox : bool).  (* document mousedown *)

(** The pairs [(index, x)] that [xs.map((x, index) => ...)] goes through. *)
Definition indexed {A} (xs : list A) : list (nat * A) :=
  combine (seq 0 (length xs)) xs.

(* ------------------------------------------------------------------ *)
(** ** [approach3/Combobox3.tsx] *)

Module Combobox3.
Section Render.
Variable P : ComboboxProps.
Variable s : Cells.             (* the state this render reads *)

Definition filteredOptions : list ComboboxOption :=
  List.filter
    (fun option =>
       JsString.includes (JsString.toLowerCase (label option))
                         (JsString.toLowerCase (inputValue s)))
    (options P).

Definition activeDescendantId : option string :=
  if (0 <? Z.of_nat (length filteredOptions))%Z
     && (0 <=? highlightedIndex s)%Z
  then match js_index filteredOptions (highlightedIndex s) with
       | Some o => Some ("option-" +:+ id o)
       | None => None
       end
  else None.

Definition handleInputChange (value : string) : Act unit :=
  if isDisabled P then skip
  else
    setInputValue value ;;
    toggling ← readIsTogglingRef;
    (if negb toggling
     then setIsOpen true ;; setHighlightedIndex 0
     else skip) ;;
    optionalCall (onInputChange P) (InputChange value).

Definition handleOptionSelect (option : ComboboxOption) : Act unit :=
  setInputValue (label option) ;;
  setIsOpen false ;;
  setHighlightedIndex 0 ;;
  optionalCall (onSelectionChange P) (SelectionChange option).

Definition handleKeyDown (e : KeyboardEvent) : Act unit :=
  if isDisabled P then skip
  else
    (if shouldPreventDefault (key e) then emit PreventDefault else skip) ;;
    if String.eqb (key e) KEYS.ARROW_DOWN then
      if negb (isOpen s) then setIsOpen true
      else updateHighlightedIndex (fun prev =>
             if (prev <? Z.of_nat (length filteredOptions) - 1)%Z
             then (prev + 1)%Z else 0%Z)
    else if String.eqb (key e) KEYS.ARROW_UP then
      if isOpen s
      then updateHighlightedIndex (fun prev =>
             if (0 <? prev)%Z
             then (prev - 1)%Z
             else (Z.of_nat (length filteredOptions) - 1)%Z)
      else skip
    else if String.eqb (key e) KEYS.ENTER then
      match js_index filteredOptions (highlightedIndex s) with
      | Some o => if isOpen s then handleOptionSelect o else skip
      | None => skip
      end
    else if String.eqb (key e) KEYS.ESCAPE then
      setIsOpen false ;; setHighlightedIndex 0
    else if String.eqb (key e) KEYS.TAB then
      (* the popup closes; the browser moves focus on its own *)
      if isOpen s then setIsOpen false ;; setHighlightedIndex 0 else skip
    else skip.

Definition handleToggle : Act unit :=
  if isDisabled P then skip
  else
    writeIsTogglingRef true ;;
    prev ← pendingIsOpen;
    (if prev then setHighlightedIndex 0 else setHighlightedIndex 0) ;;
    setIsOpen (negb prev) ;;
    emit (QueueMicrotask ResetToggling).

(** the document [mousedown] listener; [inside] is
    [combobox.contains(event.target)] *)
Definition handleClickOutside (inside : bool) : Act unit :=
  if isOpen s && negb inside then setIsOpen false else skip.

Definition ComboboxPopup (opts : list ComboboxOption) (hi : Z) : PopupView :=
  match opts with
  | [] => NoOptions
  | _ =>
      OptionList
        (map (fun '(index, option) =>
                mkOptionView (Some ("option-" +:+ id option))
                             (Z.eqb (Z.of_nat index) hi)
                             (label option)
                             option)
             (indexed opts))
  end.

Definition view : View :=
  {| aria_expanded := isOpen s;
     aria_activedescendant :=
       match activeDescendantId with
       | Some a => if isOpen s && JsString.truthy a then Some a else None
       | None => None
       end;
     input_value := inputValue s;
     input_disabled := isDisabled P;
     popup := if isOpen s
              then Some (ComboboxPopup filteredOptions (highlightedIndex s))
              else None |}.

(** The listeners of the rendered elements. *)
Definition dispatch (ev : DomEvent) : Act unit :=
  match ev with
  | KeyDown e => handleKeyDown e
  | Change v => if isDisabled P then skip else handleInputChange v
  | Click => if isDisabled P then skip else handleToggle
  | OptionClick index =>
      match popup view with
      | Some (OptionList items) =>
          match items !! index with
          | Some item => handleOptionSelect (ov_option item)
          | None => skip
          end
      | _ => skip
      end
  | MouseDown inside => handleClickOutside inside
  end.

(** One turn of the event loop: the listener, then the microtasks. *)
Definition task (ev : DomEvent) : Cells * list Effect :=
  let r := dispatch ev s in
  (microtaskCheckpoint (effectsOf r) (cellsAfter r), effectsOf r).

End Render.

(** [useState(value || '')], [useState(false)], [useState(0)],
    [useRef(false)] *)
Definition initialCells (P : ComboboxProps) : Cells :=
  {| isOpen := false;
     inputValue := match value_prop P with
                   | Some v => if JsString.truthy v then v else ""
                   | None => ""
                   end;
     highlightedIndex := 0;
     isTogglingRef := false |}.

(** the effect keyed on [value] *)
Definition valueEffect (P : ComboboxProps) : Act unit :=
  match value_prop P with
  | Some v => setInputValue v
  | None => skip
  end.

(** The state after mounting. *)
Definition mount (P : ComboboxProps) : Cells :=
  cellsAfter (valueEffect P (initialCells P)).

(** States the widget reaches from mounting through browser events, the
    props being those it was mounted with. *)
Inductive Reachable (P : ComboboxProps) : Cells -> Prop :=
| reach_mount : Reachable P (mount P)
| reach_task s ev : Reachable P s -> Reachable P (fst (task P s ev)).

(** A run of key presses, each one its own render and task. *)
Fixpoint pressKeys (P : ComboboxProps) (s : Cells) (ks : list KeyboardEvent) : Cells :=
  match ks with
  | [] => s
  | k :: ks' => pressKeys P (fst (task P s (KeyDown k))) ks'
  end.

End Combobox3.

(* ------------------------------------------------------------------ *)
(** ** The DOM [TreeWalker] made by [createTreeWalker]

    The filter of the source accepts tabbable elements and skips (never
    rejects) the others, so the walker visits the elements of its root's
    subtree in document order and stops at the accepted ones.  [currentNode]
    is held as its position in that order; a node outside the subtree has no
    position in it ([tw_pos] is then the length of the order) and the model
    finds nothing from there. *)

Record TreeWalker := mkTreeWalker {
  tw_root : Node;
  tw_pos : nat
}.

Definition tw_order (w : TreeWalker) : list Element := preorder (tw_root w).

Fixpoint indexOfRef (r : ElemRef) (l : list Element) : nat :=
  match l with
  | [] => 0
  | e :: l' => if Nat.eqb (ref e) r then 0 else S (indexOfRef r l')
  end.

(** First accepted element of [l], whose head has position [base]. *)
Fixpoint firstAccepted (l : list Element) (base : nat) : option (nat * Element) :=
  match l with
  | [] => None
  | e :: l' => if isTabbable e then Some (base, e) else firstAccepted l' (S base)
  end.

(** Last accepted element of [l], whose head has position [base]. *)
Fixpoint lastAccepted (l : list Element) (base : nat) (acc : option (nat * Element))
  : option (nat * Element) :=
  match l with
  | [] => acc
  | e :: l' => lastAccepted l' (S base) (if isTabbable e then Some (base, e) else acc)
  end.

Definition createTreeWalker (root : Node) : TreeWalker :=
  {| tw_root := root; tw_pos := 0 |}.

(** [walker.currentNode = node] *)
Definition setCurrentNode (w : TreeWalker) (node : ElemRef) : TreeWalker :=
  {| tw_root := tw_root w; tw_pos := indexOfRef node (tw_order w) |}.

Definition nextNode (w : TreeWalker) : option ElemRef * TreeWalker :=
  match firstAccepted (drop (S (tw_pos w)) (tw_order w)) (S (tw_pos w)) with
  | Some (i, e) => (Some (ref e), {| tw_root := tw_root w; tw_pos := i |})
  | None => (None, w)
  end.

Definition previousNode (w : TreeWalker) : option ElemRef * TreeWalker :=
  if (tw_pos w <? length (tw_order w))%nat
  then match lastAccepted (take (tw_pos w) (tw_order w)) 0 None with
       | Some (i, e) => (Some (ref e), {| tw_root := tw_root w; tw_pos := i |})
       | None => (None, w)
       end
  else (None, w).

(* ------------------------------------------------------------------ *)
(** ** [approach1/context.ts], [approach1/useFocusable.ts] *)

Record FocusableContextValue := mkFocusableContextValue {
  getNextFocusable : ElemRef -> option ElemRef;
  getPreviousFocusable : ElemRef -> option ElemRef;
  getAllFocusables : list ElemRef
}.

(** The outcome of a call that may throw. *)
Inductive Result (A : Type) :=
| Ok (a : A)
| Throw (message : string).
Arguments Ok {A} a.
Arguments Throw {A} message.

(** [context] is what [useContext(FocusableContext)] yields: [None] outside
    every provider (the context's default value is [null]). *)
Definition useFocusable (context : option FocusableContextValue)
  : Result FocusableContextValue :=
  match context with
  | None => Throw "useFocusable must be used within a FocusableProvider"
  | Some c => Ok c
  end.

(* ------------------------------------------------------------------ *)
(** ** [approach1/FocusableContext.tsx] *)

Module FocusableProvider.
Section Provider.
Variable d : Document.
Variable rootElement : option ElemRef.     (* the [rootElement] prop *)
Variable containerRef : option ElemRef.    (* [containerRef.current] *)

Definition getRoot : Node :=
  match rootElement with
  | Some r => nodeOf d r
  | None =>
      match containerRef with
      | Some container =>
          match closestForm d container with
          | Some form => nodeOf d form
          | None => body d
          end
      | None => body d
      end
  end.

(** [while (node) { ...; node = walker.nextNode(); }], collecting the
    visited nodes; [fuel] bounds the iterations. *)
Fixpoint collectLoop (fuel : nat) (w : TreeWalker) (node : option ElemRef)
  (focusables : list ElemRef) : list ElemRef :=
  match node, fuel with
  | Some n, S fuel' =>
      let '(node', w') := nextNode w in
      collectLoop fuel' w' node' (focusables ++ [n])%list
  | _, _ => focusables
  end.

Definition getAllFocusables : list ElemRef :=
  let root := getRoot in
  let walker := createTreeWalker root in
  let '(node, walker) := nextNode walker in
  collectLoop (length (tw_order walker)) walker node [].

Definition getNextFocusable (current : ElemRef) : option ElemRef :=
  let root := getRoot in
  let walker := createTreeWalker root in
  let walker := setCurrentNode walker current in
  let '(next, walker) := nextNode walker in
  match next with
  | Some n => Some n
  | None =>
      (* wrap to the first focusable element *)
      let walker := setCurrentNode walker (ref (elem root)) in
      fst (nextNode walker)
  end.

(** [while (node) { lastNode = node; node = walker.nextNode(); }] *)
Fixpoint lastLoop (fuel : nat) (w : TreeWalker) (node lastNode : option ElemRef)
  : option ElemRef :=
  match node, fuel with
  | Some n, S fuel' =>
      let '(node', w') := nextNode w in
      lastLoop fuel' w' node' (Some n)
  | _, _ => lastNode
  end.

Definition getPreviousFocusable (current : ElemRef) : option ElemRef :=
  let root := getRoot in
  let walker := createTreeWalker root in
  let walker := setCurrentNode walker current in
  let '(previous, walker) := previousNode walker in
  match previous with
  | Some p => Some p
  | None =>
      (* wrap to the last focusable element *)
      let walker := setCurrentNode walker (ref (elem root)) in
      let '(node, walker) := nextNode walker in
      lastLoop (length (tw_order walker)) walker node None
  end.

Definition value : FocusableContextValue :=
  mkFocusableContextValue getNextFocusable getPreviousFocusable getAllFocusables.

End Provider.
End FocusableProvider.

(* ------------------------------------------------------------------ *)
(** ** [approach1/Combobox1.tsx] *)

Module Combobox1.
Section Render.
Variable d : Document.
Variable context : FocusableContextValue.   (* what [useFocusable()] returned *)
Variable inputRef : option ElemRef.         (* [inputRef.current] *)
Variable P : ComboboxProps.
Variable s : Cells.                         (* the state this render reads *)

Definition filteredOptions : list ComboboxOption :=
  List.filter
    (fun option =>
       JsString.includes (JsString.toLowerCase (label option))
                         (JsString.toLowerCase (inputValue s)))
    (options P).

Definition handleInputChange (value : string) : Act unit :=
  if isDisabled P then skip
  else
    setInputValue value ;;
    toggling ← readIsTogglingRef;
    (if negb toggling
     then setIsOpen true ;; setHighlightedIndex 0
     else skip) ;;
    optionalCall (onInputChange P) (InputChange value).

Definition handleOptionSelect (option : ComboboxOption) : Act unit :=
  setInputValue (label option) ;;
  setIsOpen false ;;
  setHighlightedIndex 0 ;;
  optionalCall (onSelectionChange P) (SelectionChange option).

(** [nextElement && nextElement instanceof HTMLElement] *)
Definition isHTMLElementRef (r : ElemRef) : bool :=
  match findNode r (body d) with
  | Some n => isHTMLElement (elem n)
  | None => false
  end.

Definition handleKeyDown (e : KeyboardEvent) : Act unit :=
  if isDisabled P then skip
  else
    (if shouldPreventDefault (key e) then emit PreventDefault else skip) ;;
    if String.eqb (key e) KEYS.ARROW_DOWN then
      if negb (isOpen s) then setIsOpen true
      else updateHighlightedIndex (fun prev =>
             if (prev <? Z.of_nat (length filteredOptions) - 1)%Z
             then (prev + 1)%Z else 0%Z)
    else if String.eqb (key e) KEYS.ARROW_UP then
      if isOpen s
      then updateHighlightedIndex (fun prev =>
             if (0 <? prev)%Z
             then (prev - 1)%Z
             else (Z.of_nat (length filteredOptions) - 1)%Z)
      else skip
    else if String.eqb (key e) KEYS.ENTER then
      match js_index filteredOptions (highlightedIndex s) with
      | Some o => if isOpen s then handleOptionSelect o else skip
      | None => skip
      end
    else if String.eqb (key e) KEYS.ESCAPE then
      setIsOpen false ;; setHighlightedIndex 0
    else if String.eqb (key e) KEYS.TAB then
      (if isOpen s then setIsOpen false ;; setHighlightedIndex 0 else skip) ;;
      match inputRef with
      | Some currentElement =>
          let nextElement :=
            if shiftKey e
            then getPreviousFocusable context currentElement
            else getNextFocusable context currentElement in
          match nextElement with
          | Some next =>
              if isHTMLElementRef next
              then emit PreventDefault ;; emit (Focus next)
              else skip
          | None => skip
          end
      | None => skip
      end
    else skip.

Definition handleToggle : Act unit :=
  if isDisabled P then skip
  else
    writeIsTogglingRef true ;;
    prev ← pendingIsOpen;
    (if prev then setHighlightedIndex 0 else setHighlightedIndex 0) ;;
    setIsOpen (negb prev) ;;
    emit (QueueMicrotask ResetToggling).

Definition ComboboxPopup (opts : list ComboboxOption) (hi : Z) : PopupView :=
  match opts with
  | [] => NoOptions
  | _ =>
      OptionList
        (map (fun '(index, option) =>
                mkOptionView None
                             (Z.eqb (Z.of_nat index) hi)
                             (label option)
                             option)
             (indexed opts))
  end.

Definition view : View :=
  {| aria_expanded := isOpen s;
     aria_activedescendant := None;
     input_value := inputValue s;
     input_disabled := isDisabled P;
     popup := if isOpen s
              then Some (ComboboxPopup filteredOptions (highlightedIndex s))
              else None |}.

End Render.

(** [Combobox1Inner]: the hook call comes first and a throw aborts the
    render. *)
Definition Combobox1Inner (d : Document) (ctx : option FocusableContextValue)
  (inputRef : option ElemRef) (P : ComboboxProps) (s : Cells) : Result View :=
  match useFocusable ctx with
  | Throw m => Throw m
  | Ok _ => Ok (view P s)
  end.

(** [Combobox1]: the inner component inside a [FocusableProvider] that is
    given no [rootElement]. *)
Definition Combobox1 (d : Document) (containerRef inputRef : option ElemRef)
  (P : ComboboxProps) (s : Cells) : Result View :=
  Combobox1Inner d (Some (FocusableProvider.value d None containerRef))
                 inputRef P s.

End Combobox1.

(* ------------------------------------------------------------------ *)
(** ** [approach2/useFocusManagement]

    The hook keeps two refs across calls.  Every call reads the document as
    it is at that moment. *)

Module useFocusManagement.

Record Refs := mkRefs {
  lastFormRef : option ElemRef;
  lastTabbablesRef : list ElemRef
}.

Definition initialRefs : Refs :=
  {| lastFormRef := None; lastTabbablesRef := [] |}.

Definition sameForm (a b : option ElemRef) : bool :=
  match a, b with
  | Some x, Some y => Nat.eqb x y
  | None, None => true
  | _, _ => false
  end.

(** [tabbables.findIndex(el => el === current)]; [None] stands for [-1]. *)
Fixpoint findIndex (tabbables : list ElemRef) (current : ElemRef) : option nat :=
  match tabbables with
  | [] => None
  | el :: rest =>
      if Nat.eqb el current then Some 0%nat
      else match findIndex rest current with
           | Some i => Some (S i)
           | None => None
           end
  end.

Definition getAllTabbables (d : Document) (current : ElemRef) (refs : Refs)
  : list ElemRef * Refs :=
  let form := getClosestForm d current in
  let root := match form with Some f => nodeOf d f | None => body d end in
  if sameForm form (lastFormRef refs)
     && (0 <? length (lastTabbablesRef refs))%nat
  then (lastTabbablesRef refs, refs)
  else
    let tabbables := getTabbableElements root in
    (tabbables, {| lastFormRef := form; lastTabbablesRef := tabbables |}).

Definition getNextTabbable (d : Document) (current : ElemRef) (refs : Refs)
  : option ElemRef * Refs :=
  let '(tabbables, refs') := getAllTabbables d current refs in
  match findIndex tabbables current with
  | None => (None, refs')
  | Some currentIndex =>
      let nextIndex := (currentIndex + 1)%nat in
      if (nextIndex <? length tabbables)%nat
      then (tabbables !! nextIndex, refs')
      else (None, refs')
  end.

Definition getPreviousTabbable (d : Document) (current : ElemRef) (refs : Refs)
  : option ElemRef * Refs :=
  let '(tabbables, refs') := getAllTabbables d current refs in
  match findIndex tabbables current with
  | None => (None, refs')
  | Some currentIndex =>
      let prevIndex := (Z.of_nat currentIndex - 1)%Z in
      if (0 <=? prevIndex)%Z
      then (tabbables !! Z.to_nat prevIndex, refs')
      else (None, refs')
  end.

(** The tabbable elements of the scope of [current] in the document [d],
    in document order: those of the closest enclosing form, or of the body
    when there is none. *)
Definition scopeTabbables (d : Document) (current : ElemRef) : list ElemRef :=
  match getClosestForm d current with
  | Some f => getTabbableElements (nodeOf d f)
  | None => getTabbableElements (body d)
  end.

End useFocusManagement.

(* ------------------------------------------------------------------ *)
(** ** The filter over any text

    The filter of the two widgets ([Combobox3.tsx] lines 94-96,
    [Combobox1.tsx] lines 83-85) with the text left open: a text is a list of
    code units of any kind, [toLowerCase] is whatever
    [String.prototype.toLowerCase] does to it, and an option is anything that
    has a label. *)

Module TextFilter.
Section Units.
Context {U : Type} `{EqDecision U}.

(** [s.startsWith(p)] *)
Fixpoint startsWith (s p : list U) {struct p} : bool :=
  match p with
  | [] => true
  | a :: p' =>
      match s with
      | [] => false
      | b :: s' => bool_decide (a = b) && startsWith s' p'
      end
  end.

(** [String.prototype.includes] *)
Fixpoint includes (s needle : list U) : bool :=
  startsWith s needle ||
  match s with
  | [] => false
  | _ :: s' => includes s' needle
  end.

Variable toLowerCase : list U -> list U.
Context {O : Type}.
Variable label : O -> list U.

Definition filteredOptions (options : list O) (inputValue : list U) : list O :=
  List.filter
    (fun option => includes (toLowerCase (label option)) (toLowerCase inputValue))
    options.


End Units.
End TextFilter.

(** The widgets' texts as lists of their code units. *)
Definition unitsOf (s : string) : list ascii := list_ascii_of_string s.

(** [JsString.toLowerCase] on a list of code units. *)
Definition lowerUnits (l : list ascii) : list ascii :=
  list_ascii_of_string (JsString.toLowerCase (string_of_list_ascii l)).

(* ------------------------------------------------------------------ *)
(** ** The filter as the specification words it

    "Those options ..., kept in their original order."  This definition
    follows that sentence, not the source; the theorem compares it with
    [filteredOptions]. *)

Module ClaimedFilter.

(** [Selects keep xs ys]: [ys] is [xs] with exactly the elements satisfying
    [keep] retained, each as often and in the order it occurs in [xs]. *)
Inductive Selects {A : Type} (keep : A -> Prop) : list A -> list A -> Prop :=
| sel_nil : Selects keep [] []
| sel_keep x xs ys : keep x -> Selects keep xs ys -> Selects keep (x :: xs) (x :: ys)
| sel_drop x xs ys : ~ keep x -> Selects keep xs ys -> Selects keep (x :: xs) ys.

End ClaimedFilter.

(** The props the specification lists for the component. *)
Definition listedProps : list string :=
  ["options"; "placeholder"; "onSelectionChange"; "onInputChange";
   "disabled"; "className"].

(* ------------------------------------------------------------------ *)
(** ** Sample data

    The four options of the component tests, a form with two inputs, and
    the same form after a third input was inserted between them. *)

Definition mockOptions : list ComboboxOption :=
  [ mkOption "1" "Apple" "apple"; mkOption "2" "Banana" "banana";
    mkOption "3" "Cherry" "cherry"; mkOption "4" "Date" "date" ].

Definition mockProps : ComboboxProps :=
  mkProps mockOptions None None true true None None.

Definition disabledProps : ComboboxProps :=
  mkProps mockOptions None None true true None (Some true).

Definition cherryProps : ComboboxProps :=
  mkProps mockOptions (Some "Cherry") None true true None None.

Definition pressed (k : string) : KeyboardEvent := mkKey k false.

(** The widget of [mockProps] after a click on its input. *)
Definition opened : Cells :=
  fst (Combobox3.task mockProps (Combobox3.mount mockProps) Click).

(** ... and after one more ArrowDown. *)
Definition openedSecond : Cells :=
  fst (Combobox3.task mockProps opened (KeyDown (pressed KEYS.ARROW_DOWN))).

Definition plain (r : ElemRef) (tag : string) : Element :=
  mkElement r tag ∅ true.

Definition formBefore : Document :=
  mkDocument
    (El (plain 0 "body")
        [El (plain 10 "form") [El (plain 1 "input") []; El (plain 2 "input") []]]).

Definition formAfter : Document :=
  mkDocument
    (El (plain 0 "body")
        [El (plain 10 "form")
            [El (plain 1 "input") []; El (plain 3 "input") [];
             El (plain 2 "input") []]]).


(* ------------------------------------------------------------------ *)
(** ** Notions used to state the theorems *)

Module Combobox3State.
Import Combobox3.

(** The highlighted index fits a list of [n] options: it is a position of
    the list, or the list is empty and the index is [0] or [-1]. *)
Definition indexFits (n : nat) (i : Z) : Prop :=
  (0 <= i < Z.of_nat n)%Z \/ (n = 0%nat /\ (i = 0 \/ i = -1)%Z).

Definition Inv (P : ComboboxProps) (s : Cells) : Prop :=
  isTogglingRef s = false
  /\ (isDisabled P = true -> isOpen s = false /\ highlightedIndex s = 0%Z)
  /\ indexFits (length (filteredOptions P s)) (highlightedIndex s).

(** The cells after the updates a key can make. *)
Definition withIsOpen (c : Cells) (b : bool) : Cells :=
  mkCells b (inputValue c) (highlightedIndex c) (isTogglingRef c).
Definition withIndex (c : Cells) (i : Z) : Cells :=
  mkCells (isOpen c) (inputValue c) i (isTogglingRef c).
Definition closed (c : Cells) : Cells :=
  mkCells false (inputValue c) 0 (isTogglingRef c).
Definition selected (c : Cells) (o : ComboboxOption) : Cells :=
  mkCells false (label o) 0 (isTogglingRef c).

Definition stepDown (n : nat) (prev : Z) : Z :=
  if (prev <? Z.of_nat n - 1)%Z then (prev + 1)%Z else 0%Z.
Definition stepUp (n : nat) (prev : Z) : Z :=
  if (0 <? prev)%Z then (prev - 1)%Z else (Z.of_nat n - 1)%Z.

End Combobox3State.

(** An ArrowDown or ArrowUp press. *)
Definition isArrow (e : KeyboardEvent) : Prop :=
  key e = KEYS.ARROW_DOWN \/ key e = KEYS.ARROW_UP.


Definition fourArrows : list KeyboardEvent :=
  [pressed KEYS.ARROW_DOWN; pressed KEYS.ARROW_DOWN;
   pressed KEYS.ARROW_UP; pressed KEYS.ARROW_DOWN].

(* ------------------------------------------------------------------ *)
(** ** Further notions: the tab order, and the focus hook on one document *)

(** The tabbable elements of a list of elements, by reference and in the
    order of the list. *)
Definition tabbableRefs (l : list Element) : list ElemRef :=
  map ref (List.filter isTabbable l).

Module HookRuns.
Import useFocusManagement.

(** The refs of the hook after any number of its calls, all of them made
    while the document is [d]. *)
Inductive HookReachable (d : Document) : Refs -> Prop :=
| hook_initial : HookReachable d initialRefs
| hook_all current refs :
    HookReachable d refs ->
    HookReachable d (snd (getAllTabbables d current refs))
| hook_next current refs :
    HookReachable d refs ->
    HookReachable d (snd (getNextTabbable d current refs))
| hook_previous current refs :
    HookReachable d refs ->
    HookReachable d (snd (getPreviousTabbable d current refs)).

(** The list of a form (or of the body, for no form) in the document. *)
Definition formTabbables (d : Document) (form : option ElemRef) : list ElemRef :=
  getTabbableElements (match form with Some f => nodeOf d f | None => body d end).

(** What the cache holds is empty or the list of the form it was made for. *)
Definition cacheFresh (d : Document) (refs : Refs) : Prop :=
  lastTabbablesRef refs = []
  \/ lastTabbablesRef refs = formTabbables d (lastFormRef refs).

(** The refs after the hook served one lookup in the sample form. *)
Definition servedRefs : Refs := snd (getNextTabbable formBefore 2 initialRefs).

End HookRuns.

(** Further sample data: the form of [formBefore], its two inputs, the
    items of the popup of [opened], and one of the options. *)
Definition formNode : Node := nodeOf formBefore 10.
Definition firstInput : Element := plain 1 "input".
Definition secondInput : Element := plain 2 "input".

Definition openedItems : list OptionView :=
  match popup (Combobox3.view mockProps opened) with
  | Some (OptionList items) => items
  | _ => []
  end.

Definition banana : ComboboxOption := mkOption "2" "Banana" "banana".

(* ------------------------------------------------------------------ *)
(** ** Re-renders with other props

    The parent may render the widget again with other props; the state
    cells are kept.  After such a render the effect keyed on [value]
    ([Combobox3.tsx] lines 186-190) runs again when [value] is not the one of
    the render before. *)

Module Combobox3Rerender.
Import Combobox3.

(** [Object.is] on two values of the [value] prop *)
Definition sameValue (a b : option string) : bool :=
  match a, b with
  | Some x, Some y => String.eqb x y
  | None, None => true
  | _, _ => false
  end.

(** The cells after the widget of props [P] is rendered with props [P']. *)
Definition rerender (P P' : ComboboxProps) (s : Cells) : Cells :=
  if sameValue (value_prop P) (value_prop P') then s
  else cellsAfter (valueEffect P' s).

(** The props and cells a widget can be in: mounted, after a browser event,
    after a re-render. *)
Inductive Live : ComboboxProps -> Cells -> Prop :=
| live_mount P : Live P (mount P)
| live_task P s ev : Live P s -> Live P (fst (task P s ev))
| live_rerender P P' s : Live P s -> Live P' (rerender P P' s).

End Combobox3Rerender.

(** Sample data for re-renders: [mockProps] with the text set to "Banana"
    by the parent, and the opened widget after three more ArrowDown. *)
Definition bananaProps : ComboboxProps :=
  mkProps mockOptions (Some "Banana") None true true None None.

Definition openedFourth : Cells :=
  fst (Combobox3.task mockProps
         (fst (Combobox3.task mockProps openedSecond
                 (KeyDown (pressed KEYS.ARROW_DOWN))))
         (KeyDown (pressed KEYS.ARROW_DOWN))).

(* ================================================================== *)
(** * Theorems *)

(* ------------------------------------------------------------------ *)
(** ** Strings *)

Section StringFacts.
Import JsString ClaimedFilter.

Lemma startsWith_spec s p :
  startsWith s p = true <-> exists post, s = p +:+ post.
Proof.
  revert s. induction p as [|a p IH]; intros s; simpl.
  - split; [intros _; now exists s | reflexivity].
  - destruct s as [|b s].
    + split; [discriminate | intros [post H]; discriminate].
    + rewrite andb_true_iff, Ascii.eqb_eq, IH. split.
      * intros [-> [post ->]]. now exists post.
      * intros [post H]. injection H as -> ->. split; [reflexivity|now exists post].
Qed.

Lemma includes_spec s needle :
  includes s needle = true <-> exists pre post, s = pre +:+ needle +:+ post.
Proof.
  induction s as [|c s IH]; simpl; rewrite orb_true_iff, startsWith_spec.
  - split.
    + intros [[post H] | H]; [|discriminate]. now exists "", post.
    + intros ([|] & post & H); [left; now exists post | discriminate].
  - rewrite IH. split.
    + intros [[post H] | (pre & post & ->)].
      * now exists "", post.
      * now exists (String c pre), post.
    + intros ([|c' pre] & post & H); simpl in H.
      * left. now exists post.
      * injection H as -> ->. right. now exists pre, post.
Qed.

Lemma append_empty_r s : s +:+ "" = s.
Proof.
  induction s as [|c s IH]; [reflexivity|].
  change (String c (s +:+ "") = String c s). now rewrite IH.
Qed.

Lemma includes_refl s : includes s s = true.
Proof.
  apply includes_spec. exists "", "".
  change (s = s +:+ ""). now rewrite append_empty_r.
Qed.


Lemma Selects_functional {A} (keep : A -> Prop) xs ys zs :
  Selects keep xs ys -> Selects keep xs zs -> ys = zs.
Proof.
  intros H. revert zs. induction H; intros zs Hz; inversion Hz; subst;
    try contradiction; try reflexivity; auto.
  f_equal. auto.
Qed.

End StringFacts.

(* ------------------------------------------------------------------ *)
(** ** The popup shows the filtered list *)

Lemma map_snd_combine_seq {A} (xs : list A) a :
  map snd (combine (seq a (length xs)) xs) = xs.
Proof.
  revert a. induction xs as [|x xs IH]; intros a; simpl; [reflexivity|].
  now rewrite IH.
Qed.




(** *** The filter over any text *)

Section TextFilterFacts.
Context {U : Type} `{EqDecision U}.



End TextFilterFacts.

(** The widgets' filter is the filter over any text, taken at 8-bit code
    units and [JsString.toLowerCase]. *)
Lemma includes_unitsOf s needle :
  JsString.includes s needle = TextFilter.includes (unitsOf s) (unitsOf needle).
Proof.
  assert (Hs : forall a b,
             JsString.startsWith a b = TextFilter.startsWith (unitsOf a) (unitsOf b)).
  { intros a b. revert a. induction b as [|x b IH]; intros a; [reflexivity|].
    destruct a as [|y a]; [reflexivity|]. cbn. rewrite IH. f_equal.
    destruct (Ascii.eqb_spec x y) as [->|Hne].
    - symmetry. now apply bool_decide_eq_true.
    - symmetry. now apply bool_decide_eq_false. }
  induction s as [|c s IH]; cbn; rewrite Hs; [reflexivity|]. now rewrite IH.
Qed.

Lemma filteredOptions_as_TextFilter P s :
  Combobox3.filteredOptions P s
  = TextFilter.filteredOptions lowerUnits (fun o => unitsOf (label o))
      (options P) (unitsOf (inputValue s)).
Proof.
  unfold Combobox3.filteredOptions, TextFilter.filteredOptions.
  apply filter_ext. intros o. rewrite includes_unitsOf. unfold lowerUnits, unitsOf.
  now rewrite !string_of_list_ascii_of_string.
Qed.

(** Lower-casing folds the accented capitals too: the text of an option
    labelled with a capital E-acute (201) contains the small e-acute (233). *)
Lemma accented_capital_matches_its_small_letter :
  JsString.toLowerCase (String (ascii_of_nat 201) "cole")
  = String (ascii_of_nat 233) "cole"
  /\ Combobox3.filteredOptions
       (mkProps [mkOption "5" (String (ascii_of_nat 201) "cole") "ecole"]
                None None false false None None)
       (mkCells true (String (ascii_of_nat 233) EmptyString) 0 false)
     = [mkOption "5" (String (ascii_of_nat 201) "cole") "ecole"].
Proof. split; reflexivity. Qed.


(* ------------------------------------------------------------------ *)
(** ** Invariant of the reachable states of [Combobox3] *)

Module Combobox3Facts.
Import Combobox3 Combobox3State.

Lemma indexFits_zero n : indexFits n 0.
Proof. unfold indexFits. destruct n; [right; auto | left; lia]. Qed.

Lemma indexFits_down n i :
  indexFits n i -> indexFits n (if (i <? Z.of_nat n - 1)%Z then i + 1 else 0)%Z.
Proof.
  intros H. destruct (Z.ltb_spec i (Z.of_nat n - 1)); [|apply indexFits_zero].
  destruct H as [H | [-> H]]; [left; lia | simpl in *; lia].
Qed.

Lemma indexFits_up n i :
  indexFits n i -> indexFits n (if (0 <? i)%Z then i - 1 else Z.of_nat n - 1)%Z.
Proof.
  intros H. destruct (Z.ltb_spec 0 i).
  - destruct H as [H | [-> H]]; [left; lia | lia].
  - destruct H as [H | [-> H]]; [left; lia | right; simpl; auto].
Qed.

(** The filtered list only depends on the props and the input text. *)
Lemma filteredOptions_inputValue P s s' :
  inputValue s' = inputValue s -> filteredOptions P s' = filteredOptions P s.
Proof. unfold filteredOptions. now intros ->. Qed.

(** *** What the key handler does, key by key *)

Lemma keydown_disabled P s e c :
  isDisabled P = true -> handleKeyDown P s e c = (tt, c, []).
Proof. intros H. unfold handleKeyDown. now rewrite H. Qed.

Lemma keydown_ArrowDown P s e c :
  isDisabled P = false -> key e = KEYS.ARROW_DOWN ->
  handleKeyDown P s e c =
  (tt,
   if isOpen s
   then withIndex c (stepDown (length (filteredOptions P s)) (highlightedIndex c))
   else withIsOpen c true,
   [PreventDefault]).
Proof.
  intros Hd Hk. unfold handleKeyDown. rewrite Hd, Hk.
  destruct c, (isOpen s); reflexivity.
Qed.

Lemma keydown_ArrowUp P s e c :
  isDisabled P = false -> key e = KEYS.ARROW_UP ->
  handleKeyDown P s e c =
  (tt,
   if isOpen s
   then withIndex c (stepUp (length (filteredOptions P s)) (highlightedIndex c))
   else c,
   [PreventDefault]).
Proof.
  intros Hd Hk. unfold handleKeyDown. rewrite Hd, Hk.
  destruct c, (isOpen s); reflexivity.
Qed.

Lemma keydown_Enter P s e c :
  isDisabled P = false -> key e = KEYS.ENTER ->
  handleKeyDown P s e c =
  match js_index (filteredOptions P s) (highlightedIndex s) with
  | Some o =>
      if isOpen s
      then (tt, selected c o,
            PreventDefault ::
            (if onSelectionChange P then [SelectionChange o] else []))
      else (tt, c, [PreventDefault])
  | None => (tt, c, [PreventDefault])
  end.
Proof.
  intros Hd Hk. unfold handleKeyDown. rewrite Hd, Hk.
  change (shouldPreventDefault KEYS.ENTER) with true.
  change (String.eqb KEYS.ENTER KEYS.ARROW_DOWN) with false.
  change (String.eqb KEYS.ENTER KEYS.ARROW_UP) with false.
  change (String.eqb KEYS.ENTER KEYS.ENTER) with true.
  cbv iota.
  destruct (js_index (filteredOptions P s) (highlightedIndex s)) as [o|];
    [|destruct c; reflexivity].
  destruct (isOpen s); [|destruct c; reflexivity].
  unfold handleOptionSelect, optionalCall.
  destruct c, (onSelectionChange P); reflexivity.
Qed.

Lemma keydown_Escape P s e c :
  isDisabled P = false -> key e = KEYS.ESCAPE ->
  handleKeyDown P s e c = (tt, closed c, [PreventDefault]).
Proof.
  intros Hd Hk. unfold handleKeyDown. rewrite Hd, Hk. destruct c; reflexivity.
Qed.

Lemma keydown_Tab P s e c :
  key e = KEYS.TAB ->
  handleKeyDown P s e c =
  (tt, if negb (isDisabled P) && isOpen s then closed c else c, []).
Proof.
  intros Hk. unfold handleKeyDown. rewrite Hk.
  destruct (isDisabled P), c, (isOpen s); reflexivity.
Qed.

Lemma keydown_other P s e c :
  key e <> KEYS.ARROW_DOWN -> key e <> KEYS.ARROW_UP -> key e <> KEYS.ENTER ->
  key e <> KEYS.ESCAPE -> key e <> KEYS.TAB ->
  handleKeyDown P s e c = (tt, c, []).
Proof.
  intros H1 H2 H3 H4 H5. unfold handleKeyDown, shouldPreventDefault, array_includes.
  apply String.eqb_neq in H1, H2, H3, H4, H5.
  simpl. rewrite H1, H2, H3, H4, H5.
  destruct (isDisabled P), c; reflexivity.
Qed.

(** The six ways a key can be handled. *)
Lemma key_cases (k : string) :
  k = KEYS.ARROW_DOWN \/ k = KEYS.ARROW_UP \/ k = KEYS.ENTER \/ k = KEYS.ESCAPE
  \/ k = KEYS.TAB
  \/ (k <> KEYS.ARROW_DOWN /\ k <> KEYS.ARROW_UP /\ k <> KEYS.ENTER
      /\ k <> KEYS.ESCAPE /\ k <> KEYS.TAB).
Proof.
  destruct (String.eqb_spec k KEYS.ARROW_DOWN); [tauto|].
  destruct (String.eqb_spec k KEYS.ARROW_UP); [tauto|].
  destruct (String.eqb_spec k KEYS.ENTER); [tauto|].
  destruct (String.eqb_spec k KEYS.ESCAPE); [tauto|].
  destruct (String.eqb_spec k KEYS.TAB); tauto.
Qed.

(** *** The invariant is kept by every task *)

Lemma Inv_mount P : Inv P (mount P).
Proof.
  unfold Inv, mount, valueEffect, initialCells.
  destruct (value_prop P); simpl; repeat split; auto using indexFits_zero.
Qed.

Lemma task_keydown P s e :
  task P s (KeyDown e)
  = (cellsAfter (handleKeyDown P s e s), effectsOf (handleKeyDown P s e s)).
Proof.
  unfold task, dispatch. f_equal.
  destruct (isDisabled P) eqn:Hd; [now rewrite keydown_disabled|].
  destruct (key_cases (key e)) as [H|[H|[H|[H|[H|(H1&H2&H3&H4&H5)]]]]].
  - rewrite keydown_ArrowDown by assumption. now destruct (isOpen s).
  - rewrite keydown_ArrowUp by assumption. now destruct (isOpen s).
  - rewrite keydown_Enter by assumption.
    destruct (js_index _ _); [|reflexivity].
    destruct (isOpen s), (onSelectionChange P); reflexivity.
  - now rewrite keydown_Escape.
  - now rewrite keydown_Tab.
  - now rewrite keydown_other.
Qed.

Lemma Inv_same P s s' :
  Inv P s -> isTogglingRef s' = isTogglingRef s -> isOpen s' = isOpen s ->
  inputValue s' = inputValue s -> highlightedIndex s' = highlightedIndex s ->
  Inv P s'.
Proof.
  intros (Ht & Hd & Hi) E1 E2 E3 E4. unfold Inv.
  rewrite E1, E2, E4, (filteredOptions_inputValue P s s' E3). auto.
Qed.

(** An enabled widget whose index is reset to [0]. *)
Lemma Inv_reset P o v :
  isDisabled P = false -> Inv P (mkCells o v 0 false).
Proof.
  intros Ed. repeat split; cbn; try congruence. apply indexFits_zero.
Qed.

(** A closed widget whose index is reset to [0]. *)
Lemma Inv_closed P v : Inv P (mkCells false v 0 false).
Proof. repeat split; cbn. apply indexFits_zero. Qed.

(** Moving the index inside the list it fits. *)
Lemma Inv_index P s i :
  Inv P s -> isDisabled P = false ->
  indexFits (length (filteredOptions P s)) i ->
  Inv P (withIndex s i).
Proof.
  intros (Ht & Hd & Hi) Ed Hf. repeat split; try (cbn; congruence).
  now rewrite (filteredOptions_inputValue P s (withIndex s i)).
Qed.

Lemma Inv_keydown P s e : Inv P s -> Inv P (fst (task P s (KeyDown e))).
Proof.
  intros HI. rewrite task_keydown. cbn [fst].
  destruct (isDisabled P) eqn:Ed.
  { rewrite keydown_disabled by assumption. exact HI. }
  pose proof HI as (Ht & Hd & Hi).
  destruct s as [o v i t]; cbn in Ht, Hi; subst t.
  destruct (key_cases (key e)) as [H|[H|[H|[H|[H|(H1&H2&H3&H4&H5)]]]]].
  - rewrite keydown_ArrowDown by assumption. unfold cellsAfter; cbn [fst snd isOpen].
    destruct o.
    + apply Inv_index; auto. now apply indexFits_down.
    + repeat split; cbn; try congruence. exact Hi.
  - rewrite keydown_ArrowUp by assumption. unfold cellsAfter; cbn [fst snd isOpen].
    destruct o; [|exact HI].
    apply Inv_index; auto. now apply indexFits_up.
  - rewrite keydown_Enter by assumption.
    destruct (js_index _ _) as [opt|]; [destruct o|]; try exact HI.
    apply Inv_closed.
  - rewrite keydown_Escape by assumption. apply Inv_closed.
  - rewrite keydown_Tab by assumption. rewrite Ed.
    destruct o; [apply Inv_closed | exact HI].
  - rewrite keydown_other by assumption. exact HI.
Qed.

Lemma Inv_task P s ev : Inv P s -> Inv P (fst (task P s ev)).
Proof.
  destruct ev as [e | v | | index | inside]; [apply Inv_keydown | | | |];
    intros HI; pose proof HI as (Ht & Hd & Hi).
  - (* Change *)
    unfold task, dispatch, handleInputChange.
    destruct (isDisabled P) eqn:Ed; [exact HI|].
    destruct s as [o w i t]; cbn in Ht; subst t.
    destruct (onInputChange P); now apply Inv_reset.
  - (* Click *)
    unfold task, dispatch, handleToggle.
    destruct (isDisabled P) eqn:Ed; [exact HI|].
    destruct s as [o w i t]; cbn in Ht; subst t.
    destruct o; now apply Inv_reset.
  - (* OptionClick *)
    unfold task, dispatch.
    destruct (popup (view P s)) as [[|items]|]; try exact HI.
    destruct (items !! index) as [item|]; [|exact HI].
    unfold handleOptionSelect, optionalCall.
    destruct s as [o w i t]; cbn in Ht; subst t.
    destruct (onSelectionChange P); apply Inv_closed.
  - (* MouseDown *)
    unfold task, dispatch, handleClickOutside.
    destruct s as [o w i t]; cbn in Ht, Hd, Hi; subst t.
    destruct o, inside; try exact HI.
    repeat split; cbn; try (now destruct (Hd ltac:(assumption))). exact Hi.
Qed.

Lemma Reachable_Inv P s : Reachable P s -> Inv P s.
Proof.
  induction 1 as [|s ev _ IH]; [apply Inv_mount | now apply Inv_task].
Qed.

End Combobox3Facts.

(* ------------------------------------------------------------------ *)
(** ** The keyboard behaviour of [Combobox3] *)

(** Off the Tab key the key handler of [Combobox1] is that of [Combobox3]. *)
Lemma Combobox1_handleKeyDown_off_tab d context inputRef P s e c :
  key e <> KEYS.TAB ->
  Combobox1.handleKeyDown d context inputRef P s e c
  = Combobox3.handleKeyDown P s e c.
Proof.
  intros Hk. unfold Combobox1.handleKeyDown, Combobox3.handleKeyDown.
  apply String.eqb_neq in Hk. now rewrite Hk.
Qed.

Section Combobox3Claims.
Import Combobox3 Combobox3State Combobox3Facts.

Lemma Reachable_open_enabled P s :
  Reachable P s -> isOpen s = true -> isDisabled P = false.
Proof.
  intros HR Ho. destruct (Reachable_Inv P s HR) as (_ & Hd & _).
  destruct (isDisabled P); [|reflexivity].
  destruct (Hd eq_refl) as [Hc _]. congruence.
Qed.

Lemma keydown_effects_no_focus P s e c :
  Forall (fun x => isFocus x = false) (effectsOf (handleKeyDown P s e c)).
Proof.
  destruct (isDisabled P) eqn:Ed.
  { rewrite keydown_disabled by assumption. constructor. }
  destruct (key_cases (key e)) as [H|[H|[H|[H|[H|(H1&H2&H3&H4&H5)]]]]].
  - rewrite keydown_ArrowDown by assumption. repeat constructor.
  - rewrite keydown_ArrowUp by assumption. repeat constructor.
  - rewrite keydown_Enter by assumption.
    destruct (js_index _ _); [destruct (isOpen s), (onSelectionChange P)|];
      repeat constructor.
  - rewrite keydown_Escape by assumption. repeat constructor.
  - rewrite keydown_Tab by assumption. constructor.
  - rewrite keydown_other by assumption. constructor.
Qed.

Lemma truthy_option_id x : JsString.truthy ("option-" +:+ x) = true.
Proof. reflexivity. Qed.

Lemma js_index_fits {A} (xs : list A) i :
  (0 <= i < Z.of_nat (length xs))%Z -> exists x, js_index xs i = Some x.
Proof.
  intros H. unfold js_index.
  destruct (Z.ltb_spec i 0); [lia|].
  apply lookup_lt_is_Some_2. lia.
Qed.

(** C4, as the code has it.  In every state the key handler of [Combobox3]
    focuses no element, and on Tab it has no effect on the event at all (no
    [preventDefault]).  The input's [aria-activedescendant] is ["option-"]
    followed by the id of the option at the highlighted index when the popup
    is open and there is an option at that index; it is absent when the popup
    is closed, when the filtered list is empty and when the index is not a
    position of the list.  In the states reached by browser events with the
    props the widget was mounted with, a non-empty filtered list always has
    an option at the index. *)
Theorem focus_stays_on_input_and_active_descendant_is_the_option_at_the_index :
  forall (P : ComboboxProps) (s : Cells),
    (forall e, Forall (fun x => isFocus x = false) (snd (task P s (KeyDown e))))
    /\ (forall e, key e = KEYS.TAB -> snd (task P s (KeyDown e)) = [])
    /\ aria_activedescendant (view P s)
       = (if isOpen s
          then option_map (fun o => "option-" +:+ id o)
                          (js_index (filteredOptions P s) (highlightedIndex s))
          else None)
    /\ (Reachable P s -> filteredOptions P s <> [] ->
        exists o, js_index (filteredOptions P s) (highlightedIndex s) = Some o).
Proof.
  intros P s. split; [|split; [|split]].
  - intros e. rewrite task_keydown. apply keydown_effects_no_focus.
  - intros e Hk. rewrite task_keydown. now rewrite keydown_Tab.
  - unfold view, activeDescendantId; cbn [aria_activedescendant].
    destruct (js_index (filteredOptions P s) (highlightedIndex s)) as [o|] eqn:Ei.
    + unfold js_index in Ei.
      destruct (Z.ltb_spec (highlightedIndex s) 0) as [|Hi]; [discriminate|].
      apply lookup_lt_Some in Ei.
      replace (0 <? Z.of_nat (length (filteredOptions P s)))%Z with true
        by (symmetry; apply Z.ltb_lt; lia).
      replace (0 <=? highlightedIndex s)%Z with true
        by (symmetry; apply Z.leb_le; lia).
      now destruct (isOpen s).
    + destruct (_ && _), (isOpen s); reflexivity.
  - intros HR Hne. destruct (Reachable_Inv P s HR) as (_ & _ & Hi).
    assert (Hn : (0 < length (filteredOptions P s))%nat)
      by (destruct (filteredOptions P s); [congruence | simpl; lia]).
    destruct Hi as [Hi | [Hz _]]; [|lia].
    now apply js_index_fits.
Qed.

(** C6, as the code has it.  In every state of an enabled combobox Escape
    closes the popup: the open flag becomes false, the highlighted index
    returns to 0, and nothing else changes (the text is kept, no callback is
    invoked, nothing is focused).  A disabled combobox ignores the key.  The
    handler of [Combobox1] does the same as that of [Combobox3] on this key. *)
Theorem escape_closes_the_popup_of_an_enabled_widget :
  forall (P : ComboboxProps) (s : Cells) (e : KeyboardEvent),
    key e = KEYS.ESCAPE ->
    (isDisabled P = false ->
     fst (task P s (KeyDown e))
     = mkCells false (inputValue s) 0 (isTogglingRef s)
     /\ List.filter isCallback (snd (task P s (KeyDown e))) = []
     /\ List.filter isFocus (snd (task P s (KeyDown e))) = [])
    /\ (isDisabled P = true -> task P s (KeyDown e) = (s, []))
    /\ (forall d context inputRef c,
          Combobox1.handleKeyDown d context inputRef P s e c
          = handleKeyDown P s e c).
Proof.
  intros P s e Hk. split; [|split].
  - intros Ed. rewrite task_keydown. now rewrite keydown_Escape.
  - intros Ed. rewrite task_keydown. now rewrite keydown_disabled.
  - intros. apply Combobox1_handleKeyDown_off_tab. rewrite Hk. discriminate.
Qed.

(** C7.  When the disabled flag is true, a keyboard event, an input-change
    event and a click on the input each leave the widget state as it was and
    invoke no callback (the handlers have no effect at all). *)
Theorem disabled_widget_ignores_interaction :
  forall (P : ComboboxProps) (s : Cells),
    isDisabled P = true ->
    (forall e, task P s (KeyDown e) = (s, []))
    /\ (forall v, task P s (Change v) = (s, []))
    /\ task P s Click = (s, [])
    /\ (forall e c, handleKeyDown P s e c = (tt, c, []))
    /\ (forall v c, handleInputChange P v c = (tt, c, []))
    /\ (forall c, handleToggle P c = (tt, c, [])).
Proof.
  intros P s Hd. repeat split; intros.
  - rewrite task_keydown. now rewrite keydown_disabled.
  - unfold task, dispatch. now rewrite Hd.
  - unfold task, dispatch. now rewrite Hd.
  - now apply keydown_disabled.
  - unfold handleInputChange. now rewrite Hd.
  - unfold handleToggle. now rewrite Hd.
Qed.

(** C10, as the code has it.  In every state of an enabled combobox Enter
    selects exactly when the popup is open and an option exists at the
    highlighted index: then the input text becomes that option's label, the
    popup closes, the index returns to 0 and [onSelectionChange] (when
    supplied) is invoked once, with that option; otherwise (popup closed,
    filtered list empty, index out of range) the state is unchanged and no
    callback is invoked.  A disabled combobox ignores the key. *)
Theorem enter_selects_the_highlighted_option_of_an_enabled_widget :
  forall (P : ComboboxProps) (s : Cells) (e : KeyboardEvent),
    key e = KEYS.ENTER ->
    (isDisabled P = false ->
     match (if isOpen s
            then js_index (filteredOptions P s) (highlightedIndex s)
            else None) with
     | Some o =>
         fst (task P s (KeyDown e)) = mkCells false (label o) 0 (isTogglingRef s)
         /\ List.filter isCallback (snd (task P s (KeyDown e)))
            = (if onSelectionChange P then [SelectionChange o] else [])
     | None =>
         fst (task P s (KeyDown e)) = s
         /\ List.filter isCallback (snd (task P s (KeyDown e))) = []
     end)
    /\ (isDisabled P = true -> task P s (KeyDown e) = (s, [])).
Proof.
  intros P s e Hk. split; intros Ed; rewrite task_keydown.
  - rewrite keydown_Enter by assumption.
    destruct (isOpen s) eqn:Ho.
    + destruct (js_index _ _) as [o|]; [|now split].
      destruct (onSelectionChange P); now split.
    + destruct (js_index _ _); now split.
  - now rewrite keydown_disabled.
Qed.

End Combobox3Claims.

Section ArrowKeys.
Import Combobox3 Combobox3State Combobox3Facts.

Lemma arrow_down_open P s e :
  isDisabled P = false -> isOpen s = true -> key e = KEYS.ARROW_DOWN ->
  fst (task P s (KeyDown e))
  = withIndex s (stepDown (length (filteredOptions P s)) (highlightedIndex s)).
Proof.
  intros Ed Ho Hk. rewrite task_keydown, keydown_ArrowDown by assumption.
  now rewrite Ho.
Qed.

Lemma arrow_up_open P s e :
  isDisabled P = false -> isOpen s = true -> key e = KEYS.ARROW_UP ->
  fst (task P s (KeyDown e))
  = withIndex s (stepUp (length (filteredOptions P s)) (highlightedIndex s)).
Proof.
  intros Ed Ho Hk. rewrite task_keydown, keydown_ArrowUp by assumption.
  now rewrite Ho.
Qed.

Lemma stepDown_wraps n i :
  (0 <= i <= Z.of_nat n - 1)%Z ->
  stepDown n i = (if (i =? Z.of_nat n - 1)%Z then 0 else i + 1)%Z
  /\ (0 <= stepDown n i <= Z.of_nat n - 1)%Z.
Proof.
  intros H. unfold stepDown.
  destruct (Z.ltb_spec i (Z.of_nat n - 1)), (Z.eqb_spec i (Z.of_nat n - 1)); lia.
Qed.

Lemma stepUp_wraps n i :
  (0 <= i <= Z.of_nat n - 1)%Z ->
  stepUp n i = (if (i =? 0)%Z then Z.of_nat n - 1 else i - 1)%Z
  /\ (0 <= stepUp n i <= Z.of_nat n - 1)%Z.
Proof.
  intros H. unfold stepUp.
  destruct (Z.ltb_spec 0 i), (Z.eqb_spec i 0); lia.
Qed.

Lemma pressKeys_arrows P n ks : forall s,
  isDisabled P = false -> isOpen s = true ->
  length (filteredOptions P s) = n ->
  (0 <= highlightedIndex s <= Z.of_nat n - 1)%Z ->
  Forall isArrow ks ->
  isOpen (pressKeys P s ks) = true
  /\ inputValue (pressKeys P s ks) = inputValue s
  /\ (0 <= highlightedIndex (pressKeys P s ks) <= Z.of_nat n - 1)%Z.
Proof.
  induction ks as [|k ks IH]; intros s Ed Ho Hn Hi Hks; [now cbn|].
  inversion Hks as [|? ? Hk Hks']; subst. cbn [pressKeys].
  assert (Hstep : exists j, fst (task P s (KeyDown k)) = withIndex s j
                            /\ (0 <= j <= Z.of_nat (length (filteredOptions P s)) - 1)%Z).
  { destruct Hk as [Hk | Hk].
    - eexists. split; [now apply arrow_down_open|]. now apply stepDown_wraps.
    - eexists. split; [now apply arrow_up_open|]. now apply stepUp_wraps. }
  destruct Hstep as (j & -> & Hj).
  destruct (IH (withIndex s j)) as (H1 & H2 & H3); auto.
Qed.

Lemma pressKeys_disabled P ks : forall s,
  isDisabled P = true -> pressKeys P s ks = s.
Proof.
  induction ks as [|k ks IH]; intros s Hd; [reflexivity|]. cbn [pressKeys].
  rewrite task_keydown, keydown_disabled by assumption. now apply IH.
Qed.

(** C9, as the code has it.  Take any state whose popup is open over
    [n > 0] filtered options with the highlighted index at 0.  In an enabled
    widget every run of ArrowDown and ArrowUp presses keeps the popup open
    and the index within [0, n-1]; from there ArrowDown adds one and wraps
    from [n-1] to 0, and ArrowUp subtracts one and wraps from 0 to [n-1].  A
    disabled widget ignores the presses.  On the two arrow keys the handler
    of [Combobox1] does the same as that of [Combobox3]. *)
Theorem arrow_keys_cycle_within_the_list_of_an_enabled_widget :
  forall (P : ComboboxProps) (s : Cells) (ks : list KeyboardEvent) (n : nat),
    isOpen s = true -> highlightedIndex s = 0%Z ->
    length (filteredOptions P s) = n -> (0 < n)%nat ->
    Forall isArrow ks ->
    (isDisabled P = false ->
     isOpen (pressKeys P s ks) = true
     /\ (0 <= highlightedIndex (pressKeys P s ks) <= Z.of_nat n - 1)%Z
     /\ (forall e, key e = KEYS.ARROW_DOWN ->
           highlightedIndex (fst (task P (pressKeys P s ks) (KeyDown e)))
           = if (highlightedIndex (pressKeys P s ks) =? Z.of_nat n - 1)%Z
             then 0%Z else (highlightedIndex (pressKeys P s ks) + 1)%Z)
     /\ (forall e, key e = KEYS.ARROW_UP ->
           highlightedIndex (fst (task P (pressKeys P s ks) (KeyDown e)))
           = if (highlightedIndex (pressKeys P s ks) =? 0)%Z
             then (Z.of_nat n - 1)%Z
             else (highlightedIndex (pressKeys P s ks) - 1)%Z))
    /\ (isDisabled P = true -> pressKeys P s ks = s)
    /\ (forall d context inputRef s' c e, isArrow e ->
          Combobox1.handleKeyDown d context inputRef P s' e c
          = handleKeyDown P s' e c).
Proof.
  intros P s ks n Ho H0 Hn Hpos Hks. split; [|split].
  - intros Ed.
    destruct (pressKeys_arrows P n ks s Ed Ho Hn ltac:(lia) Hks) as (Ho' & Hv & Hi).
    assert (Hn' : length (filteredOptions P (pressKeys P s ks)) = n)
      by now rewrite (filteredOptions_inputValue P s _ Hv).
    split; [assumption|]. split; [lia|]. split.
    + intros e Hk. rewrite arrow_down_open, Hn' by assumption.
      now apply stepDown_wraps.
    + intros e Hk. rewrite arrow_up_open, Hn' by assumption.
      now apply stepUp_wraps.
  - intros Ed. now apply pressKeys_disabled.
  - intros d context inputRef s' c e [Hk | Hk];
      apply Combobox1_handleKeyDown_off_tab; rewrite Hk; discriminate.
Qed.

End ArrowKeys.

(* ------------------------------------------------------------------ *)
(** ** [Combobox1] and [Combobox3] side by side *)

(** C2.  In every state, and whatever the pending cells, the handlers of
    [Combobox1] and [Combobox3] do the same thing (same successor cells, same
    effects and callback invocations) on every key other than Tab, on every
    input change and on every option selection. *)
Theorem combobox1_and_combobox3_agree_except_on_tab :
  forall (d : Document) (context : FocusableContextValue)
         (inputRef : option ElemRef) (P : ComboboxProps) (s c : Cells)
         (e : KeyboardEvent) (v : string) (o : ComboboxOption),
    key e <> KEYS.TAB ->
    Combobox1.handleKeyDown d context inputRef P s e c
    = Combobox3.handleKeyDown P s e c
    /\ Combobox1.handleInputChange P v c = Combobox3.handleInputChange P v c
    /\ Combobox1.handleOptionSelect P o c = Combobox3.handleOptionSelect P o c
    /\ Combobox1.filteredOptions P s = Combobox3.filteredOptions P s.
Proof.
  intros d context inputRef P s c e v o Hk. repeat split.
  now apply Combobox1_handleKeyDown_off_tab.
Qed.

(* ------------------------------------------------------------------ *)
(** ** The tree walker and the focus context *)

Section WalkerFacts.



Lemma firstAccepted_bounds l base i e :
  firstAccepted l base = Some (i, e) -> (base <= i < base + length l)%nat.
Proof.
  revert base. induction l as [|x l IH]; intros base H; simpl in *;
    [discriminate|].
  destruct (isTabbable x).
  - injection H as <- _. lia.
  - apply IH in H. lia.
Qed.



(** A step of the walker moves it forward to a position of the order. *)
Lemma nextNode_advances w n w' :
  nextNode w = (Some n, w') ->
  tw_root w' = tw_root w
  /\ (tw_pos w < tw_pos w' < length (tw_order w))%nat.
Proof.
  unfold nextNode. destruct (firstAccepted _ _) as [[i e]|] eqn:E; [|discriminate].
  intros H. injection H as _ <-. split; [reflexivity|]. cbn.
  apply firstAccepted_bounds in E. rewrite length_drop in E. lia.
Qed.

(** The loops of the provider end before their fuel does: any fuel that
    covers the rest of the order gives the same result. *)
Lemma lastLoop_fuel fuel : forall fuel' w n lastNode,
  (tw_pos w < length (tw_order w) <= tw_pos w + fuel)%nat ->
  (length (tw_order w) <= tw_pos w + fuel')%nat ->
  FocusableProvider.lastLoop fuel w (Some n) lastNode
  = FocusableProvider.lastLoop fuel' w (Some n) lastNode.
Proof.
  induction fuel as [|fuel IH]; intros fuel' w n lastNode H H'; [lia|].
  destruct fuel' as [|fuel']; [lia|]. cbn.
  destruct (nextNode w) as [[m|] w'] eqn:E; [|now destruct fuel, fuel'].
  apply nextNode_advances in E as [Hr Hp].
  apply IH; unfold tw_order in *; rewrite Hr; lia.
Qed.

Lemma collectLoop_fuel fuel : forall fuel' w n acc,
  (tw_pos w < length (tw_order w) <= tw_pos w + fuel)%nat ->
  (length (tw_order w) <= tw_pos w + fuel')%nat ->
  FocusableProvider.collectLoop fuel w (Some n) acc
  = FocusableProvider.collectLoop fuel' w (Some n) acc.
Proof.
  induction fuel as [|fuel IH]; intros fuel' w n acc H H'; [lia|].
  destruct fuel' as [|fuel']; [lia|]. cbn.
  destruct (nextNode w) as [[m|] w'] eqn:E; [|now destruct fuel, fuel'].
  apply nextNode_advances in E as [Hr Hp].
  apply IH; unfold tw_order in *; rewrite Hr; lia.
Qed.

Lemma collectLoop_done fuel w acc :
  FocusableProvider.collectLoop fuel w None acc = acc.
Proof. now destruct fuel. Qed.

Lemma lastLoop_done fuel w lastNode :
  FocusableProvider.lastLoop fuel w None lastNode = lastNode.
Proof. now destruct fuel. Qed.

(** At their call sites the two loops are given enough fuel: more fuel does
    not change what they return. *)
Lemma getAllFocusables_fuel d rootElement containerRef extra :
  let walker := createTreeWalker
                  (FocusableProvider.getRoot d rootElement containerRef) in
  FocusableProvider.collectLoop
    (length (tw_order (snd (nextNode walker))) + extra)
    (snd (nextNode walker)) (fst (nextNode walker)) []
  = FocusableProvider.getAllFocusables d rootElement containerRef.
Proof.
  cbv zeta. unfold FocusableProvider.getAllFocusables.
  destruct (nextNode _) as [[n|] w'] eqn:E; cbn [fst snd].
  - apply nextNode_advances in E as [Hr Hp].
    apply collectLoop_fuel; unfold tw_order in *; rewrite Hr; cbn in *; lia.
  - now rewrite !collectLoop_done.
Qed.

Lemma getPreviousFocusable_fuel d rootElement containerRef current extra :
  let root := FocusableProvider.getRoot d rootElement containerRef in
  let walker := setCurrentNode (createTreeWalker root) current in
  fst (previousNode walker) = None ->
  let walker' := setCurrentNode (snd (previousNode walker)) (ref (elem root)) in
  FocusableProvider.lastLoop
    (length (tw_order (snd (nextNode walker'))) + extra)
    (snd (nextNode walker')) (fst (nextNode walker')) None
  = FocusableProvider.getPreviousFocusable d rootElement containerRef current.
Proof.
  cbv zeta. unfold FocusableProvider.getPreviousFocusable.
  destruct (previousNode _) as [[p|] w0] eqn:E0; cbn [fst snd];
    [discriminate|]. intros _.
  destruct (nextNode _) as [[n|] w'] eqn:E; cbn [fst snd].
  - apply nextNode_advances in E as [Hr Hp].
    apply lastLoop_fuel; unfold tw_order in *; rewrite Hr; cbn in *; lia.
  - now rewrite !lastLoop_done.
Qed.



End WalkerFacts.

(* ------------------------------------------------------------------ *)
(** ** The focus hook of approach 2 *)

Section HookFacts.
Import useFocusManagement.

Lemma findIndex_absent l c : ~ In c l -> findIndex l c = None.
Proof.
  induction l as [|x l IH]; intros H; simpl; [reflexivity|].
  destruct (Nat.eqb_spec x c) as [->|Hne]; [exfalso; apply H; now left|].
  rewrite IH; [reflexivity|]. intros Hin. apply H. now right.
Qed.

Lemma findIndex_first pre c rest :
  ~ In c pre -> findIndex (pre ++ c :: rest)%list c = Some (length pre).
Proof.
  induction pre as [|x pre IH]; intros H; simpl.
  - now rewrite Nat.eqb_refl.
  - destruct (Nat.eqb_spec x c) as [->|Hne]; [exfalso; apply H; now left|].
    rewrite IH; [reflexivity|]. intros Hin. apply H. now right.
Qed.

Lemma next_of_list d current refs :
  fst (getNextTabbable d current refs) =
  match findIndex (fst (getAllTabbables d current refs)) current with
  | Some i => fst (getAllTabbables d current refs) !! S i
  | None => None
  end.
Proof.
  unfold getNextTabbable. destruct (getAllTabbables d current refs) as [l r].
  cbn [fst]. destruct (findIndex l current) as [i|]; [|reflexivity].
  replace (i + 1)%nat with (S i) by lia.
  destruct (Nat.ltb_spec (S i) (length l)); [reflexivity|].
  cbn [fst]. symmetry. apply lookup_ge_None. lia.
Qed.

Lemma previous_of_list d current refs :
  fst (getPreviousTabbable d current refs) =
  match findIndex (fst (getAllTabbables d current refs)) current with
  | Some (S i) => fst (getAllTabbables d current refs) !! i
  | _ => None
  end.
Proof.
  unfold getPreviousTabbable. destruct (getAllTabbables d current refs) as [l r].
  cbn [fst]. destruct (findIndex l current) as [[|i]|]; try reflexivity.
  destruct (Z.leb_spec 0 (Z.of_nat (S i) - 1)); [|lia].
  cbn [fst]. f_equal. lia.
Qed.

End HookFacts.

(* ------------------------------------------------------------------ *)
(** ** Errors *)




(* ------------------------------------------------------------------ *)
(** ** Neighbours in the tab order of approach 2 *)

(** C5, as the code has it.  The hook works on one list per call: the list
    cached by an earlier call when that call was for the same form and the
    cache is not empty, and otherwise the document-order tabbable elements of
    the scope (the closest form, or the body), computed from the document now.
    [getNextTabbable] yields the element right after the current one in that
    list and [null] at its end, [getPreviousTabbable] the element right
    before it and [null] at its start, and both yield [null] when the current
    element is not in the list. *)
Theorem tabbable_neighbours_come_from_the_hook_list :
  forall (d : Document) (current : ElemRef) (refs : useFocusManagement.Refs)
         (l : list ElemRef),
    fst (useFocusManagement.getAllTabbables d current refs) = l ->
    l = (if useFocusManagement.sameForm (getClosestForm d current)
                                        (useFocusManagement.lastFormRef refs)
            && (0 <? length (useFocusManagement.lastTabbablesRef refs))%nat
         then useFocusManagement.lastTabbablesRef refs
         else useFocusManagement.scopeTabbables d current)
    /\ (forall pre nxt post,
          l = (pre ++ current :: nxt :: post)%list -> ~ In current pre ->
          fst (useFocusManagement.getNextTabbable d current refs) = Some nxt)
    /\ (forall pre,
          l = (pre ++ [current])%list -> ~ In current pre ->
          fst (useFocusManagement.getNextTabbable d current refs) = None)
    /\ (forall pre prv post,
          l = (pre ++ prv :: current :: post)%list ->
          ~ In current pre -> prv <> current ->
          fst (useFocusManagement.getPreviousTabbable d current refs) = Some prv)
    /\ (forall post,
          l = current :: post ->
          fst (useFocusManagement.getPreviousTabbable d current refs) = None)
    /\ (~ In current l ->
          fst (useFocusManagement.getNextTabbable d current refs) = None
          /\ fst (useFocusManagement.getPreviousTabbable d current refs) = None).
Proof.
  intros d current refs l Hl.
  split; [|split; [|split; [|split; [|split]]]].
  - subst l. unfold useFocusManagement.getAllTabbables,
      useFocusManagement.scopeTabbables.
    destruct (_ && _); [reflexivity|].
    now destruct (getClosestForm d current).
  - intros pre nxt post -> Hpre. rewrite next_of_list, Hl.
    rewrite findIndex_first by assumption.
    rewrite lookup_app_r by lia.
    now replace (S (length pre) - length pre)%nat with 1%nat by lia.
  - intros pre -> Hpre. rewrite next_of_list, Hl.
    rewrite findIndex_first by assumption.
    apply lookup_ge_None. rewrite length_app. simpl. lia.
  - intros pre prv post -> Hpre Hne. rewrite previous_of_list, Hl.
    replace (pre ++ prv :: current :: post)%list
      with ((pre ++ [prv]) ++ current :: post)%list
      by now rewrite <- app_assoc.
    rewrite findIndex_first.
    + rewrite length_app. simpl.
      replace (length pre + 1)%nat with (S (length pre)) by lia.
      rewrite <- app_assoc. simpl.
      rewrite lookup_app_r by lia.
      now replace (length pre - length pre)%nat with 0%nat by lia.
    + rewrite in_app_iff. simpl. intuition congruence.
  - intros post ->. rewrite previous_of_list, Hl.
    simpl. now rewrite Nat.eqb_refl.
  - intros Hout. rewrite next_of_list, previous_of_list, Hl.
    now rewrite findIndex_absent.
Qed.

(* ------------------------------------------------------------------ *)
(** ** The props *)

(** C8, as the code has it.  The interface has the six props the
    specification lists and one more, the optional [value]; that prop sets the
    text the mounted input shows. *)
Theorem ComboboxProps_are_the_listed_props_and_value :
  Permutation ComboboxProps_keys ("value" :: listedProps)
  /\ forall P : ComboboxProps,
       input_value (Combobox3.view P (Combobox3.mount P))
       = default "" (value_prop P).
Proof.
  split.
  - unfold ComboboxProps_keys, listedProps.
    apply perm_trans with
      ("value" :: ["options"; "placeholder"; "onSelectionChange";
                   "onInputChange"; "className"; "disabled"]).
    + apply perm_swap.
    + do 5 apply perm_skip. apply perm_swap.
  - intros P. unfold Combobox3.view, Combobox3.mount, Combobox3.valueEffect,
      Combobox3.initialCells.
    now destruct (value_prop P).
Qed.

(* ------------------------------------------------------------------ *)
(** ** The theorems at work on the sample data *)

Lemma opened_reachable : Combobox3.Reachable mockProps opened.
Proof. unfold opened. apply Combobox3.reach_task, Combobox3.reach_mount. Defined.

Lemma openedSecond_reachable : Combobox3.Reachable mockProps openedSecond.
Proof. unfold openedSecond. apply Combobox3.reach_task, opened_reachable. Defined.

(** After a click the first option is the active descendant. *)
Lemma active_descendant_after_click :
  Combobox3.Reachable mockProps opened
  /\ exists o,
       js_index (Combobox3.filteredOptions mockProps opened)
                (highlightedIndex opened) = Some o
       /\ aria_activedescendant (Combobox3.view mockProps opened)
          = Some ("option-" +:+ id o).
Proof.
  split; [exact opened_reachable|].
  destruct (focus_stays_on_input_and_active_descendant_is_the_option_at_the_index
              mockProps opened) as (_ & _ & Ha & H).
  destruct (H opened_reachable) as [o Ho]; [discriminate|].
  exists o. split; [exact Ho|]. rewrite Ha, Ho. reflexivity.
Defined.

Lemma escape_after_click :
  isDisabled mockProps = false
  /\ key (pressed KEYS.ESCAPE) = KEYS.ESCAPE
  /\ fst (Combobox3.task mockProps opened (KeyDown (pressed KEYS.ESCAPE)))
     = mkCells false (inputValue opened) 0 (isTogglingRef opened)
  /\ List.filter isCallback
       (snd (Combobox3.task mockProps opened (KeyDown (pressed KEYS.ESCAPE)))) = []
  /\ List.filter isFocus
       (snd (Combobox3.task mockProps opened (KeyDown (pressed KEYS.ESCAPE)))) = [].
Proof.
  split; [reflexivity|]. split; [reflexivity|].
  destruct (escape_closes_the_popup_of_an_enabled_widget
              mockProps opened (pressed KEYS.ESCAPE) eq_refl) as (H & _).
  exact (H eq_refl).
Defined.

Lemma disabled_click_does_nothing :
  isDisabled disabledProps = true
  /\ Combobox3.task disabledProps (Combobox3.mount disabledProps) Click
     = (Combobox3.mount disabledProps, []).
Proof.
  split; [reflexivity|].
  apply (disabled_widget_ignores_interaction
           disabledProps (Combobox3.mount disabledProps)).
  reflexivity.
Defined.

Lemma enter_after_arrow_down :
  isDisabled mockProps = false
  /\ key (pressed KEYS.ENTER) = KEYS.ENTER
  /\ fst (Combobox3.task mockProps openedSecond (KeyDown (pressed KEYS.ENTER)))
     = mkCells false "Banana" 0 false
  /\ List.filter isCallback
       (snd (Combobox3.task mockProps openedSecond (KeyDown (pressed KEYS.ENTER))))
     = [SelectionChange (mkOption "2" "Banana" "banana")].
Proof.
  split; [reflexivity|]. split; [reflexivity|].
  destruct (enter_selects_the_highlighted_option_of_an_enabled_widget
              mockProps openedSecond (pressed KEYS.ENTER) eq_refl) as (H & _).
  exact (H eq_refl).
Defined.

Lemma four_arrows_after_click :
  (isDisabled mockProps = false
   /\ isOpen opened = true /\ highlightedIndex opened = 0%Z
   /\ length (Combobox3.filteredOptions mockProps opened) = 4%nat
   /\ (0 < 4)%nat /\ Forall isArrow fourArrows)
  /\ (0 <= highlightedIndex (Combobox3.pressKeys mockProps opened fourArrows)
      <= Z.of_nat 4 - 1)%Z.
Proof.
  assert (Ha : Forall isArrow fourArrows)
    by (repeat constructor; (now left) || (now right)).
  split.
  - repeat split; try reflexivity; try lia. exact Ha.
  - destruct (arrow_keys_cycle_within_the_list_of_an_enabled_widget
                mockProps opened fourArrows 4 eq_refl eq_refl eq_refl
                ltac:(lia) Ha) as (H & _).
    now destruct (H eq_refl) as (_ & Hr & _).
Defined.

Lemma enter_is_handled_alike :
  key (pressed KEYS.ENTER) <> KEYS.TAB
  /\ Combobox1.handleKeyDown formBefore
       (FocusableProvider.value formBefore None (Some 1)) (Some 1)
       mockProps openedSecond (pressed KEYS.ENTER) openedSecond
     = Combobox3.handleKeyDown mockProps openedSecond (pressed KEYS.ENTER)
         openedSecond.
Proof.
  split; [discriminate|].
  apply (combobox1_and_combobox3_agree_except_on_tab formBefore
           (FocusableProvider.value formBefore None (Some 1)) (Some 1)
           mockProps openedSecond openedSecond (pressed KEYS.ENTER)
           "" (mkOption "1" "Apple" "apple")).
  discriminate.
Defined.


Lemma first_input_is_followed_by_the_second :
  fst (useFocusManagement.getAllTabbables formBefore 1
         useFocusManagement.initialRefs) = [1; 2]%nat
  /\ fst (useFocusManagement.getNextTabbable formBefore 1
            useFocusManagement.initialRefs) = Some 2%nat.
Proof.
  split; [reflexivity|].
  destruct (tabbable_neighbours_come_from_the_hook_list formBefore 1
              useFocusManagement.initialRefs [1; 2]%nat eq_refl)
    as (_ & H & _).
  apply (H [] 2%nat []); [reflexivity | intros []].
Defined.

(** Enter with the index past the end of a non-empty list: a widget open
    over [Banana] with index 3 selects nothing. *)
Lemma enter_past_the_end_of_the_list_selects_nothing :
  isDisabled bananaProps = false
  /\ Combobox3.filteredOptions bananaProps (mkCells true "Banana" 3 false)
     = [banana]
  /\ Combobox3.task bananaProps (mkCells true "Banana" 3 false)
       (KeyDown (pressed KEYS.ENTER))
     = (mkCells true "Banana" 3 false, [PreventDefault]).
Proof. repeat split. Qed.

(* ------------------------------------------------------------------ *)
(** ** Where the code departs from the specification's sentences *)


Lemma opened_live_when_disabled : Combobox3Rerender.Live disabledProps opened.
Proof.
  exact (Combobox3Rerender.live_rerender mockProps disabledProps opened
           (Combobox3Rerender.live_task mockProps _ Click
              (Combobox3Rerender.live_mount mockProps))).
Qed.

(** C4: a re-render with another [value] sets the text and keeps the
    highlighted index.  The opened widget with the highlight on its fourth
    option, rendered again with [value="Banana"], is open over the one-option
    list [Banana] with index 3, and its input has no [aria-activedescendant]. *)
Lemma value_change_leaves_the_highlight_off_the_list :
  Combobox3Rerender.Live bananaProps
    (Combobox3Rerender.rerender mockProps bananaProps openedFourth)
  /\ Combobox3Rerender.rerender mockProps bananaProps openedFourth
     = mkCells true "Banana" 3 false
  /\ Combobox3.filteredOptions bananaProps (mkCells true "Banana" 3 false)
     = [banana]
  /\ aria_activedescendant
       (Combobox3.view bananaProps (mkCells true "Banana" 3 false)) = None.
Proof.
  split; [|repeat split].
  apply Combobox3Rerender.live_rerender. unfold openedFourth, openedSecond, opened.
  repeat apply Combobox3Rerender.live_task. apply Combobox3Rerender.live_mount.
Qed.

(** C6: a widget that was opened and is then rendered with the disabled
    flag keeps its open popup, and Escape does not close it. *)
Lemma escape_is_ignored_by_a_disabled_open_widget :
  Combobox3Rerender.Live disabledProps opened
  /\ isOpen opened = true
  /\ Combobox3.task disabledProps opened (KeyDown (pressed KEYS.ESCAPE))
     = (opened, [])
  /\ isOpen (fst (Combobox3.task disabledProps opened
                    (KeyDown (pressed KEYS.ESCAPE)))) <> false.
Proof.
  split; [exact opened_live_when_disabled|]. repeat split. discriminate.
Qed.

(** C9: in that same disabled widget, open over four options with the
    index at 0, ArrowDown leaves the index at 0 where the claim has it move
    to 1. *)
Lemma arrow_down_is_ignored_by_a_disabled_open_widget :
  Combobox3Rerender.Live disabledProps opened
  /\ isOpen opened = true
  /\ highlightedIndex opened = 0%Z
  /\ length (Combobox3.filteredOptions disabledProps opened) = 4%nat
  /\ highlightedIndex
       (fst (Combobox3.task disabledProps opened
               (KeyDown (pressed KEYS.ARROW_DOWN)))) = 0%Z
  /\ highlightedIndex
       (fst (Combobox3.task disabledProps opened
               (KeyDown (pressed KEYS.ARROW_DOWN)))) <> (0 + 1)%Z.
Proof.
  split; [exact opened_live_when_disabled|]. repeat split. discriminate.
Qed.

(** C10: in that same disabled widget the popup is open and Apple sits at
    the highlighted index, yet Enter selects nothing: the text stays empty,
    the popup stays open and no callback is invoked. *)
Lemma enter_is_ignored_by_a_disabled_open_widget :
  Combobox3Rerender.Live disabledProps opened
  /\ isOpen opened = true
  /\ js_index (Combobox3.filteredOptions disabledProps opened)
              (highlightedIndex opened)
     = Some (mkOption "1" "Apple" "apple")
  /\ Combobox3.task disabledProps opened (KeyDown (pressed KEYS.ENTER))
     = (opened, [])
  /\ inputValue (fst (Combobox3.task disabledProps opened
                        (KeyDown (pressed KEYS.ENTER)))) <> "Apple".
Proof.
  split; [exact opened_live_when_disabled|]. repeat split. discriminate.
Qed.

(** C5: once the hook has cached the form's list, a later call answers from
    the cache.  After an input (3) is inserted between the two inputs of the
    form, the tabbable elements of the form are 1, 3, 2 in document order,
    yet the element returned as next after 1 is still 2, not 3. *)
Lemma cached_list_hides_an_inserted_input :
  useFocusManagement.scopeTabbables formAfter 1 = [1; 3; 2]%nat
  /\ fst (useFocusManagement.getNextTabbable formAfter 1
            (snd (useFocusManagement.getNextTabbable formBefore 1
                    useFocusManagement.initialRefs)))
     = Some 2%nat
  /\ fst (useFocusManagement.getNextTabbable formAfter 1
            (snd (useFocusManagement.getNextTabbable formBefore 1
                    useFocusManagement.initialRefs)))
     <> Some 3%nat.
Proof. repeat split; try reflexivity. discriminate. Qed.

(** C8: [value] is a member of the interface that the specification does
    not list, and it is part of the API: of two widgets given the same six
    listed props, the one given [value="Cherry"] shows that text. *)
Lemma value_is_a_prop_the_list_omits :
  In "value" ComboboxProps_keys
  /\ ~ In "value" listedProps
  /\ input_value (Combobox3.view cherryProps (Combobox3.mount cherryProps))
     = "Cherry"
  /\ input_value (Combobox3.view mockProps (Combobox3.mount mockProps)) = "".
Proof.
  repeat split; try reflexivity.
  - unfold ComboboxProps_keys. simpl. tauto.
  - unfold listedProps. simpl. intuition discriminate.
Qed.

(* ================================================================== *)
(** * Further properties of the code *)

(* ------------------------------------------------------------------ *)
(** ** [src/utils/focus]: which elements are tabbable *)

Lemma isTabbable_spec e :
  isTabbable e = true
  <-> hasAttribute e "disabled" = false
      /\ getAttribute e "tabindex" <> Some "-1"
      /\ matches_TABBABLE_SELECTOR e = true.
Proof.
  unfold isTabbable. destruct (hasAttribute e "disabled"); [intuition discriminate|].
  destruct (getAttribute e "tabindex") as [t|]; [|intuition discriminate].
  destruct (String.eqb_spec t "-1") as [->|Hne].
  - intuition (discriminate || congruence).
  - intuition congruence.
Qed.

Lemma filter_isTabbable_selector l :
  List.filter isTabbable (List.filter matches_TABBABLE_SELECTOR l)
  = List.filter isTabbable l.
Proof.
  induction l as [|e l IH]; simpl; [reflexivity|].
  destruct (matches_TABBABLE_SELECTOR e) eqn:Em; simpl; rewrite IH.
  - reflexivity.
  - destruct (isTabbable e) eqn:Et; [|reflexivity].
    apply isTabbable_spec in Et. destruct Et as (_ & _ & Et). congruence.
Qed.

Lemma getTabbableElements_tabbableRefs container :
  getTabbableElements container = tabbableRefs (descendants container).
Proof.
  unfold getTabbableElements, querySelectorAll_TABBABLE, tabbableRefs.
  now rewrite filter_isTabbable_selector.
Qed.

(** X1.  [getTabbableElements] returns, in document order, exactly the
    descendants of the container that [isTabbable] accepts (the selector
    query adds nothing to that test), so no element it returns carries a
    [disabled] attribute or [tabindex="-1"], and each matches the selector. *)
Theorem getTabbableElements_are_the_tabbable_descendants :
  forall container : Node,
    getTabbableElements container
    = map ref (List.filter isTabbable (descendants container))
    /\ forall r, In r (getTabbableElements container) ->
         exists e, In e (descendants container) /\ ref e = r
                   /\ hasAttribute e "disabled" = false
                   /\ getAttribute e "tabindex" <> Some "-1"
                   /\ matches_TABBABLE_SELECTOR e = true.
Proof.
  intros container. split; [apply getTabbableElements_tabbableRefs|].
  intros r. rewrite getTabbableElements_tabbableRefs. unfold tabbableRefs.
  rewrite in_map_iff. intros (e & Hr & He).
  apply filter_In in He as [Hin Ht]. apply isTabbable_spec in Ht.
  exists e. tauto.
Qed.

(* ------------------------------------------------------------------ *)
(** ** The walker, step by step *)

Section WalkerSteps.

Lemma firstAccepted_filter l : forall base,
  match firstAccepted l base with
  | Some (i, e) =>
      (base <= i)%nat /\ isTabbable e = true
      /\ List.filter isTabbable l
         = e :: List.filter isTabbable (drop (S (i - base)) l)
  | None => List.filter isTabbable l = []
  end.
Proof.
  induction l as [|x l IH]; intros base; simpl; [reflexivity|].
  destruct (isTabbable x) eqn:Ex.
  - replace (base - base)%nat with 0%nat by lia. simpl. rewrite drop_0. auto.
  - specialize (IH (S base)). destruct (firstAccepted l (S base)) as [[i e]|];
      [|exact IH].
    destruct IH as (Hle & He & Hf). split; [lia|]. split; [exact He|].
    replace (i - base)%nat with (S (i - S base)) by lia. exact Hf.
Qed.

Lemma nextNode_head w :
  fst (nextNode w) = head (tabbableRefs (drop (S (tw_pos w)) (tw_order w))).
Proof.
  unfold nextNode, tabbableRefs.
  pose proof (firstAccepted_filter (drop (S (tw_pos w)) (tw_order w)) (S (tw_pos w))) as H.
  destruct (firstAccepted _ _) as [[i e]|].
  - destruct H as (_ & _ & ->). reflexivity.
  - now rewrite H.
Qed.

Lemma nextNode_rest w n w' :
  nextNode w = (Some n, w') ->
  tabbableRefs (drop (S (tw_pos w)) (tw_order w))
  = n :: tabbableRefs (drop (S (tw_pos w')) (tw_order w)).
Proof.
  unfold nextNode, tabbableRefs.
  pose proof (firstAccepted_filter (drop (S (tw_pos w)) (tw_order w)) (S (tw_pos w))) as H.
  destruct (firstAccepted _ _) as [[i e]|]; [|discriminate].
  destruct H as (Hle & _ & ->). intros E. injection E as <- <-. cbn.
  rewrite drop_drop.
  now replace (S (tw_pos w) + S (i - S (tw_pos w)))%nat with (S i) by lia.
Qed.

Lemma collectLoop_spec fuel : forall w n acc,
  (tw_pos w < length (tw_order w) <= tw_pos w + fuel)%nat ->
  FocusableProvider.collectLoop fuel w (Some n) acc
  = (acc ++ n :: tabbableRefs (drop (S (tw_pos w)) (tw_order w)))%list.
Proof.
  induction fuel as [|fuel IH]; intros w n acc H; [lia|]. cbn.
  pose proof (nextNode_head w) as Hh.
  destruct (nextNode w) as [[m|] w'] eqn:E; cbn [fst] in Hh.
  - pose proof (nextNode_rest _ _ _ E) as Hr.
    apply nextNode_advances in E as [Hroot Hp].
    rewrite IH by (unfold tw_order in *; rewrite Hroot; lia).
    rewrite Hr. unfold tw_order. rewrite Hroot.
    now rewrite <- app_assoc.
  - rewrite collectLoop_done.
    destruct (tabbableRefs _); [reflexivity | discriminate].
Qed.

Lemma lastLoop_spec fuel : forall w n lastNode,
  (tw_pos w < length (tw_order w) <= tw_pos w + fuel)%nat ->
  FocusableProvider.lastLoop fuel w (Some n) lastNode
  = last (n :: tabbableRefs (drop (S (tw_pos w)) (tw_order w))).
Proof.
  induction fuel as [|fuel IH]; intros w n lastNode H; [lia|]. cbn.
  pose proof (nextNode_head w) as Hh.
  destruct (nextNode w) as [[m|] w'] eqn:E; cbn [fst] in Hh.
  - pose proof (nextNode_rest _ _ _ E) as Hr.
    apply nextNode_advances in E as [Hroot Hp].
    rewrite IH by (unfold tw_order in *; rewrite Hroot; lia).
    rewrite Hr. unfold tw_order. now rewrite Hroot.
  - rewrite lastLoop_done.
    destruct (tabbableRefs _); [reflexivity | discriminate].
Qed.

Lemma order_of_root (root : Node) :
  preorder root = elem root :: descendants root.
Proof. now destruct root. Qed.

Lemma indexOfRef_root root :
  indexOfRef (ref (elem root)) (preorder root) = 0%nat.
Proof. rewrite order_of_root. simpl. now rewrite Nat.eqb_refl. Qed.

Lemma indexOfRef_first pre e post :
  ~ In (ref e) (map ref pre) ->
  indexOfRef (ref e) (pre ++ e :: post)%list = length pre.
Proof.
  induction pre as [|x pre IH]; intros H; simpl.
  - now rewrite Nat.eqb_refl.
  - destruct (Nat.eqb_spec (ref x) (ref e)) as [Heq|_].
    + exfalso. apply H. now left.
    + rewrite IH; [reflexivity|]. intros Hin. apply H. now right.
Qed.

(** From the root the walker's next node is the first tabbable descendant. *)
Lemma nextNode_from_root root :
  fst (nextNode (setCurrentNode (createTreeWalker root) (ref (elem root))))
  = head (tabbableRefs (descendants root)).
Proof.
  rewrite nextNode_head. unfold setCurrentNode, createTreeWalker, tw_order.
  cbn [tw_root tw_pos]. rewrite indexOfRef_root, order_of_root. reflexivity.
Qed.

End WalkerSteps.

(* ------------------------------------------------------------------ *)
(** ** [approach1/FocusableContext.tsx]: the focus context *)

Section ProviderProperties.
Variable d : Document.
Variable rootElement containerRef : option ElemRef.

Let root := FocusableProvider.getRoot d rootElement containerRef.

Lemma drop_succ_order k : drop (S k) (preorder root) = drop k (descendants root).
Proof. now rewrite order_of_root. Qed.

Lemma tabbableRefs_app l1 l2 :
  tabbableRefs (l1 ++ l2)%list = (tabbableRefs l1 ++ tabbableRefs l2)%list.
Proof. unfold tabbableRefs. now rewrite List.filter_app, map_app. Qed.

Lemma tabbableRefs_drop_In k l r :
  In r (tabbableRefs (drop k l)) -> In r (tabbableRefs l).
Proof.
  intros H. rewrite <- (take_drop k l), tabbableRefs_app, in_app_iff. now right.
Qed.

Lemma tabbableRefs_drop_nil k l :
  tabbableRefs l = [] -> tabbableRefs (drop k l) = [].
Proof.
  intros H. destruct (tabbableRefs (drop k l)) as [|r rs] eqn:E; [reflexivity|].
  assert (Hin : In r (tabbableRefs l))
    by (apply (tabbableRefs_drop_In k); rewrite E; now left).
  rewrite H in Hin. destruct Hin.
Qed.

Lemma getNextFocusable_formula current :
  FocusableProvider.getNextFocusable d rootElement containerRef current
  = match head (tabbableRefs
                  (drop (indexOfRef current (preorder root)) (descendants root))) with
    | Some n => Some n
    | None => head (tabbableRefs (descendants root))
    end.
Proof.
  unfold FocusableProvider.getNextFocusable. fold root.
  pose proof (nextNode_head (setCurrentNode (createTreeWalker root) current)) as Hh.
  destruct (nextNode (setCurrentNode (createTreeWalker root) current))
    as [[n|] w'] eqn:E; cbn [fst] in Hh;
    unfold setCurrentNode, createTreeWalker, tw_order in Hh; cbn [tw_root tw_pos] in Hh;
    rewrite drop_succ_order in Hh; rewrite <- Hh; [reflexivity|].
  unfold nextNode in E. destruct (firstAccepted _ _) as [[i x]|]; [discriminate|].
  injection E as <-. apply nextNode_from_root.
Qed.

(** X2.  [getAllFocusables], which walks the tree, returns the same list as
    [getTabbableElements] run on the provider's root, which queries the
    selector: the tabbable descendants of the root in document order. *)
Theorem getAllFocusables_is_getTabbableElements_of_the_root :
  FocusableProvider.getAllFocusables d rootElement containerRef
  = getTabbableElements (FocusableProvider.getRoot d rootElement containerRef).
Proof.
  rewrite getTabbableElements_tabbableRefs.
  unfold FocusableProvider.getAllFocusables. fold root.
  pose proof (nextNode_head (createTreeWalker root)) as Hh.
  destruct (nextNode (createTreeWalker root)) as [[n|] w'] eqn:E; cbn [fst] in Hh.
  - pose proof (nextNode_rest _ _ _ E) as Hr.
    apply nextNode_advances in E as [Hroot Hp].
    rewrite collectLoop_spec by (unfold tw_order in *; rewrite Hroot; cbn in *; lia).
    unfold tw_order in *. rewrite Hroot. cbn [createTreeWalker tw_root tw_pos] in *.
    rewrite drop_succ_order, drop_0 in Hr. now rewrite Hr.
  - rewrite collectLoop_done.
    unfold tw_order in Hh; cbn [createTreeWalker tw_root tw_pos] in Hh.
    rewrite drop_succ_order, drop_0 in Hh.
    destruct (tabbableRefs (descendants root)); [reflexivity | discriminate].
Qed.

(** X3.  When the current element is in the root's subtree,
    [getNextFocusable] returns the first tabbable element after it in
    document order, and when none follows it wraps to the first tabbable
    descendant of the root. *)
Theorem getNextFocusable_is_the_next_tabbable_with_wrap :
  forall (pre : list Element) (e : Element) (post : list Element),
    preorder (FocusableProvider.getRoot d rootElement containerRef)
    = (pre ++ e :: post)%list ->
    ~ In (ref e) (map ref pre) ->
    FocusableProvider.getNextFocusable d rootElement containerRef (ref e)
    = match tabbableRefs post with
      | next :: _ => Some next
      | [] => head (tabbableRefs
                      (descendants
                         (FocusableProvider.getRoot d rootElement containerRef)))
      end.
Proof.
  fold root. intros pre e post Hord Hpre.
  rewrite getNextFocusable_formula.
  rewrite <- drop_succ_order, Hord, indexOfRef_first by assumption.
  replace (drop (S (length pre)) (pre ++ e :: post)%list) with post.
  - now destruct (tabbableRefs post).
  - replace (S (length pre)) with (length pre + 1)%nat by lia.
    now rewrite drop_app_add.
Qed.

(** X4.  Asked from any element inside the root's subtree,
    [getNextFocusable] returns [null] exactly when the root has no tabbable
    descendant, and what it returns otherwise is one of the elements
    [getTabbableElements] lists for the root (so never the root itself, and
    never a disabled element). *)
Theorem getNextFocusable_inside_the_root_is_null_only_without_tabbables :
  forall current : ElemRef,
    In current
       (map ref (preorder (FocusableProvider.getRoot d rootElement containerRef))) ->
    (FocusableProvider.getNextFocusable d rootElement containerRef current = None
     <-> getTabbableElements
           (FocusableProvider.getRoot d rootElement containerRef) = [])
    /\ (forall r,
          FocusableProvider.getNextFocusable d rootElement containerRef current
          = Some r ->
          In r (getTabbableElements
                  (FocusableProvider.getRoot d rootElement containerRef))).
Proof.
  fold root. intros current _. rewrite getTabbableElements_tabbableRefs,
    getNextFocusable_formula.
  set (k := indexOfRef current (preorder root)).
  destruct (tabbableRefs (drop k (descendants root))) as [|n ns] eqn:E; cbn [head].
  - split.
    + destruct (tabbableRefs (descendants root)); cbn; split; congruence.
    + intros r Hr. destruct (tabbableRefs (descendants root)) as [|x xs];
        cbn in Hr; [discriminate|]. injection Hr as ->. now left.
  - assert (Hin : In n (tabbableRefs (descendants root)))
      by (apply (tabbableRefs_drop_In k); rewrite E; now left).
    split.
    + split; [discriminate|]. intros H0. rewrite H0 in Hin. destruct Hin.
    + intros r Hr. now injection Hr as <-.
Qed.

Lemma lastAccepted_last l : forall base acc,
  option_map (fun p => ref (snd p)) (lastAccepted l base acc)
  = match last (tabbableRefs l) with
    | Some x => Some x
    | None => option_map (fun p => ref (snd p)) acc
    end.
Proof.
  induction l as [|x l IH]; intros base acc; simpl; [reflexivity|].
  rewrite IH. unfold tabbableRefs. simpl.
  destruct (isTabbable x); simpl; [|reflexivity].
  rewrite last_cons. now destruct (last _).
Qed.

Lemma previousNode_fst w :
  fst (previousNode w)
  = if (tw_pos w <? length (tw_order w))%nat
    then last (tabbableRefs (take (tw_pos w) (tw_order w)))
    else None.
Proof.
  unfold previousNode. destruct (_ <? _)%nat; [|reflexivity].
  pose proof (lastAccepted_last (take (tw_pos w) (tw_order w)) 0 None) as H.
  destruct (lastAccepted _ _ _) as [[i x]|]; cbn in *;
    now destruct (last _).
Qed.

Lemma previousNode_none_same w :
  fst (previousNode w) = None -> snd (previousNode w) = w.
Proof.
  unfold previousNode. destruct (_ <? _)%nat; [|reflexivity].
  now destruct (lastAccepted _ _ _) as [[i x]|].
Qed.

Lemma wrap_to_last w :
  tw_root w = root ->
  (let '(node, w') := nextNode (setCurrentNode w (ref (elem root))) in
   FocusableProvider.lastLoop (length (tw_order w')) w' node None)
  = last (tabbableRefs (descendants root)).
Proof.
  intros Hw.
  assert (Hs : setCurrentNode w (ref (elem root))
               = setCurrentNode (createTreeWalker root) (ref (elem root))).
  { unfold setCurrentNode, tw_order. now rewrite Hw. }
  rewrite Hs.
  set (w0 := setCurrentNode (createTreeWalker root) (ref (elem root))).
  assert (H0 : tw_pos w0 = 0%nat) by apply indexOfRef_root.
  assert (Hr0 : tw_root w0 = root) by reflexivity.
  pose proof (nextNode_head w0) as Hh.
  destruct (nextNode w0) as [[n|] w'] eqn:E; cbn [fst] in Hh.
  - pose proof (nextNode_rest _ _ _ E) as Hr.
    apply nextNode_advances in E as [Hroot Hp].
    rewrite lastLoop_spec by (unfold tw_order in *; rewrite Hroot; lia).
    unfold tw_order in *. rewrite Hroot, Hr0 in *. rewrite H0 in Hr.
    rewrite drop_succ_order, drop_0 in Hr. now rewrite Hr.
  - rewrite lastLoop_done. unfold tw_order in Hh. rewrite Hr0, H0 in Hh.
    rewrite drop_succ_order, drop_0 in Hh.
    destruct (tabbableRefs (descendants root)); [reflexivity | discriminate].
Qed.

(** X5.  When the current element is in the root's subtree,
    [getPreviousFocusable] returns the last tabbable element before it in
    the document order of that subtree (the root itself counts), and when
    there is none it wraps to the last tabbable descendant of the root. *)
Theorem getPreviousFocusable_is_the_previous_tabbable_with_wrap :
  forall (pre : list Element) (e : Element) (post : list Element),
    preorder (FocusableProvider.getRoot d rootElement containerRef)
    = (pre ++ e :: post)%list ->
    ~ In (ref e) (map ref pre) ->
    FocusableProvider.getPreviousFocusable d rootElement containerRef (ref e)
    = match last (tabbableRefs pre) with
      | Some previous => Some previous
      | None => last (tabbableRefs
                        (descendants
                           (FocusableProvider.getRoot d rootElement containerRef)))
      end.
Proof.
  fold root. intros pre e post Hord Hpre.
  unfold FocusableProvider.getPreviousFocusable. fold root.
  set (w := setCurrentNode (createTreeWalker root) (ref e)).
  assert (Hpos : tw_pos w = length pre).
  { unfold w, setCurrentNode, tw_order; cbn. rewrite Hord.
    now apply indexOfRef_first. }
  pose proof (previousNode_fst w) as Hf.
  unfold tw_order in Hf. replace (tw_root w) with root in Hf by reflexivity.
  rewrite Hpos, Hord in Hf. rewrite length_app in Hf. cbn [length] in Hf.
  replace (length pre <? length pre + S (length post))%nat with true in Hf
    by (symmetry; apply Nat.ltb_lt; lia).
  rewrite take_app_length in Hf.
  pose proof (previousNode_none_same w) as Hn.
  destruct (previousNode w) as [[p|] w1]; cbn [fst snd] in *.
  - now rewrite <- Hf.
  - rewrite <- Hf. rewrite (Hn eq_refl). now apply wrap_to_last.
Qed.

End ProviderProperties.

(* ------------------------------------------------------------------ *)
(** ** [approach2/useFocusManagement]: the hook over several calls *)

Section HookProperties.
Import useFocusManagement HookRuns.

Lemma sameForm_eq a b : sameForm a b = true <-> a = b.
Proof.
  destruct a as [x|], b as [y|]; simpl; try (split; congruence).
  rewrite Nat.eqb_eq. split; congruence.
Qed.

Lemma sameForm_refl a : sameForm a a = true.
Proof. now apply sameForm_eq. Qed.

Lemma getNextTabbable_refs d current refs :
  snd (getNextTabbable d current refs) = snd (getAllTabbables d current refs).
Proof.
  unfold getNextTabbable. destruct (getAllTabbables d current refs) as [l r].
  destruct (findIndex l current); [destruct (_ <? _)%nat|]; reflexivity.
Qed.

Lemma getPreviousTabbable_refs d current refs :
  snd (getPreviousTabbable d current refs) = snd (getAllTabbables d current refs).
Proof.
  unfold getPreviousTabbable. destruct (getAllTabbables d current refs) as [l r].
  destruct (findIndex l current); [destruct (_ <=? _)%Z|]; reflexivity.
Qed.

Lemma scopeTabbables_form d current :
  scopeTabbables d current = formTabbables d (getClosestForm d current).
Proof. unfold scopeTabbables, formTabbables. now destruct (getClosestForm d current). Qed.

Lemma getAllTabbables_cases d current refs :
  (sameForm (getClosestForm d current) (lastFormRef refs) = true
   /\ lastTabbablesRef refs <> []
   /\ getAllTabbables d current refs = (lastTabbablesRef refs, refs))
  \/ ((sameForm (getClosestForm d current) (lastFormRef refs) = false
       \/ lastTabbablesRef refs = [])
      /\ getAllTabbables d current refs
         = (scopeTabbables d current,
            mkRefs (getClosestForm d current) (scopeTabbables d current))).
Proof.
  unfold getAllTabbables. rewrite scopeTabbables_form. unfold formTabbables.
  destruct (sameForm _ _) eqn:Es; cbn [andb].
  - destruct (lastTabbablesRef refs) as [|x xs] eqn:El; cbn.
    + right. split; [now right|]. reflexivity.
    + left. repeat split. discriminate.
  - right. split; [now left|]. reflexivity.
Qed.

Lemma cacheFresh_step d current refs :
  cacheFresh d refs -> cacheFresh d (snd (getAllTabbables d current refs)).
Proof.
  intros H. destruct (getAllTabbables_cases d current refs)
    as [(_ & _ & ->) | (_ & ->)]; [exact H|].
  right. cbn. apply scopeTabbables_form.
Qed.

Lemma HookReachable_cacheFresh d refs : HookReachable d refs -> cacheFresh d refs.
Proof.
  induction 1 as [| c r _ IH | c r _ IH | c r _ IH].
  - now left.
  - now apply cacheFresh_step.
  - rewrite getNextTabbable_refs. now apply cacheFresh_step.
  - rewrite getPreviousTabbable_refs. now apply cacheFresh_step.
Qed.

Lemma fresh_list d current refs :
  cacheFresh d refs ->
  fst (getAllTabbables d current refs) = scopeTabbables d current.
Proof.
  intros H. destruct (getAllTabbables_cases d current refs)
    as [(Hs & Hne & ->) | (_ & ->)]; [|reflexivity].
  cbn. destruct H as [H | H]; [contradiction|].
  apply sameForm_eq in Hs. rewrite H, scopeTabbables_form. now rewrite Hs.
Qed.

Lemma findIndex_Some_lookup l c i :
  findIndex l c = Some i -> l !! i = Some c.
Proof.
  revert i. induction l as [|x l IH]; intros i H; simpl in H; [discriminate|].
  destruct (Nat.eqb_spec x c) as [->|_].
  - now injection H as <-.
  - destruct (findIndex l c) as [j|]; [|discriminate].
    injection H as <-. now apply IH.
Qed.

Lemma findIndex_NoDup l c i :
  NoDup l -> l !! i = Some c -> findIndex l c = Some i.
Proof.
  intros Hnd. revert i. induction Hnd as [|x l Hx _ IH]; intros i H;
    [discriminate|]. simpl.
  destruct i as [|i]; cbn in H.
  - injection H as ->. now rewrite Nat.eqb_refl.
  - destruct (Nat.eqb_spec x c) as [->|_].
    + exfalso. apply Hx. apply list_elem_of_lookup_2 in H.
      now apply list_elem_of_In.
    + now rewrite (IH i H).
Qed.

(** X6.  While the document stays as it is, whatever calls the hook has
    served before, its list for an element is the document-order list of
    tabbable elements of that element's scope; so [getNextTabbable] and
    [getPreviousTabbable] return the neighbours in that document-order list,
    and [null] at its two ends. *)
Theorem hook_follows_document_order_on_an_unchanged_document :
  forall (d : Document) (current : ElemRef) (refs : Refs),
    HookReachable d refs ->
    fst (getAllTabbables d current refs) = scopeTabbables d current
    /\ (forall pre nxt post,
          scopeTabbables d current = (pre ++ current :: nxt :: post)%list ->
          ~ In current pre ->
          fst (getNextTabbable d current refs) = Some nxt)
    /\ (forall pre,
          scopeTabbables d current = (pre ++ [current])%list ->
          ~ In current pre ->
          fst (getNextTabbable d current refs) = None)
    /\ (forall pre prv post,
          scopeTabbables d current = (pre ++ prv :: current :: post)%list ->
          ~ In current pre -> prv <> current ->
          fst (getPreviousTabbable d current refs) = Some prv)
    /\ (forall post,
          scopeTabbables d current = current :: post ->
          fst (getPreviousTabbable d current refs) = None).
Proof.
  intros d current refs HR.
  pose proof (fresh_list d current refs (HookReachable_cacheFresh d refs HR)) as Hl.
  split; [exact Hl|]. rewrite next_of_list, previous_of_list, Hl.
  split; [|split; [|split]].
  - intros pre nxt post -> Hpre. rewrite findIndex_first by assumption.
    rewrite lookup_app_r by lia.
    now replace (S (length pre) - length pre)%nat with 1%nat by lia.
  - intros pre -> Hpre. rewrite findIndex_first by assumption.
    apply lookup_ge_None. rewrite length_app. simpl. lia.
  - intros pre prv post -> Hpre Hne.
    replace (pre ++ prv :: current :: post)%list
      with ((pre ++ [prv]) ++ current :: post)%list
      by now rewrite <- app_assoc.
    rewrite findIndex_first.
    + rewrite length_app. simpl.
      replace (length pre + 1)%nat with (S (length pre)) by lia.
      rewrite <- app_assoc. simpl. rewrite lookup_app_r by lia.
      now replace (length pre - length pre)%nat with 0%nat by lia.
    + rewrite in_app_iff. simpl. intuition congruence.
  - intros post ->. simpl. now rewrite Nat.eqb_refl.
Qed.

(** X7.  Asking again changes nothing: in the same document a lookup made
    right after the same lookup returns the same element and leaves the refs
    as the first one left them. *)
Theorem repeating_a_lookup_gives_the_same_answer :
  forall (d : Document) (current : ElemRef) (refs : Refs),
    getAllTabbables d current (snd (getAllTabbables d current refs))
    = getAllTabbables d current refs
    /\ getNextTabbable d current (snd (getNextTabbable d current refs))
       = getNextTabbable d current refs
    /\ getPreviousTabbable d current (snd (getPreviousTabbable d current refs))
       = getPreviousTabbable d current refs.
Proof.
  intros d current refs.
  assert (H : getAllTabbables d current (snd (getAllTabbables d current refs))
              = getAllTabbables d current refs).
  { destruct (getAllTabbables_cases d current refs)
      as [(Hs & Hne & E) | (_ & E)]; rewrite E; cbn [snd]; [exact E|].
    unfold getAllTabbables at 1. cbn [lastFormRef lastTabbablesRef].
    rewrite sameForm_refl. cbn [andb].
    rewrite scopeTabbables_form. unfold formTabbables.
    now destruct (_ <? _)%nat. }
  split; [exact H|]. split.
  - rewrite getNextTabbable_refs. unfold getNextTabbable. now rewrite H.
  - rewrite getPreviousTabbable_refs. unfold getPreviousTabbable. now rewrite H.
Qed.

Lemma same_list_in_same_form d a b refs :
  getClosestForm d b = getClosestForm d a ->
  fst (getAllTabbables d a refs) <> [] ->
  getAllTabbables d b (snd (getAllTabbables d a refs))
  = getAllTabbables d a refs.
Proof.
  intros Hf Hne.
  destruct (getAllTabbables_cases d a refs) as [(Hs & Hc & E) | (_ & E)];
    rewrite E in *; cbn [fst snd] in *.
  - unfold getAllTabbables. rewrite Hf, Hs.
    destruct (lastTabbablesRef refs); [contradiction | reflexivity].
  - unfold getAllTabbables. cbn [lastFormRef lastTabbablesRef].
    rewrite Hf, sameForm_refl.
    destruct (scopeTabbables d a); [contradiction | reflexivity].
Qed.

(** X8.  On a list without repeated elements the two lookups undo each
    other: when [getNextTabbable] takes [a] to [b] of the same form, the
    following [getPreviousTabbable] takes [b] back to [a]; and the other way
    round. *)
Theorem next_and_previous_tabbable_undo_each_other :
  forall (d : Document) (a b : ElemRef) (refs : Refs),
    NoDup (fst (getAllTabbables d a refs)) ->
    getClosestForm d b = getClosestForm d a ->
    (fst (getNextTabbable d a refs) = Some b ->
     fst (getPreviousTabbable d b (snd (getNextTabbable d a refs))) = Some a)
    /\ (fst (getPreviousTabbable d a refs) = Some b ->
        fst (getNextTabbable d b (snd (getPreviousTabbable d a refs))) = Some a).
Proof.
  intros d a b refs Hnd Hf. split; intros H.
  - rewrite getNextTabbable_refs, previous_of_list.
    rewrite next_of_list in H.
    destruct (findIndex (fst (getAllTabbables d a refs)) a) as [i|] eqn:Ei;
      [|discriminate].
    rewrite same_list_in_same_form;
      [|assumption | intros E; rewrite E in H; discriminate].
    rewrite (findIndex_NoDup _ _ (S i) Hnd H).
    now apply findIndex_Some_lookup.
  - rewrite getPreviousTabbable_refs, next_of_list.
    rewrite previous_of_list in H.
    destruct (findIndex (fst (getAllTabbables d a refs)) a) as [[|i]|] eqn:Ei;
      try discriminate.
    rewrite same_list_in_same_form;
      [|assumption | intros E; rewrite E in H; discriminate].
    rewrite (findIndex_NoDup _ _ i Hnd H).
    now apply findIndex_Some_lookup.
Qed.

End HookProperties.

(* ------------------------------------------------------------------ *)
(** ** Approach 1 and approach 2 on the same scope *)

Section TwoApproaches.
Import useFocusManagement HookRuns.

Lemma head_lookup_after {A} (l1 : list A) x (l2 : list A) :
  (l1 ++ x :: l2)%list !! S (length l1) = head l2.
Proof.
  rewrite lookup_app_r by lia.
  replace (S (length l1) - length l1)%nat with 1%nat by lia.
  now destruct l2.
Qed.

Lemma not_in_tabbableRefs c l :
  ~ In c (map ref l) -> ~ In c (tabbableRefs l).
Proof.
  intros H Hin. apply H. unfold tabbableRefs in Hin.
  rewrite in_map_iff in *. destruct Hin as (e & He & Hf).
  apply filter_In in Hf as [Hf _]. now exists e.
Qed.

(** X9.  Take a provider whose container has the same closest form as the
    current element, a tabbable element of that scope, and a hook that has
    only served this document.  When a tabbable element follows the current
    one, [getNextFocusable] and [getNextTabbable] return the same element;
    when none follows, the hook returns [null] while the context wraps to the
    first tabbable element of the scope, which is never [null]. *)
Theorem next_focusable_and_next_tabbable_differ_only_at_the_end :
  forall (d : Document) (container : ElemRef) (refs : Refs)
         (A : list Element) (e : Element) (B : list Element),
    HookReachable d refs ->
    closestForm d container = closestForm d (ref e) ->
    descendants (FocusableProvider.getRoot d None (Some container))
    = (A ++ e :: B)%list ->
    ~ In (ref e) (map ref A) ->
    ref (elem (FocusableProvider.getRoot d None (Some container))) <> ref e ->
    isTabbable e = true ->
    fst (getNextTabbable d (ref e) refs) = head (tabbableRefs B)
    /\ FocusableProvider.getNextFocusable d None (Some container) (ref e)
       = match head (tabbableRefs B) with
         | Some next => Some next
         | None => head (getTabbableElements
                           (FocusableProvider.getRoot d None (Some container)))
         end
    /\ head (getTabbableElements
               (FocusableProvider.getRoot d None (Some container))) <> None.
Proof.
  intros d container refs A e B HR Hform Hdesc HA Hroot He.
  set (root := FocusableProvider.getRoot d None (Some container)) in *.
  assert (Hscope : scopeTabbables d (ref e) = getTabbableElements root).
  { unfold scopeTabbables, getClosestForm, root, FocusableProvider.getRoot.
    rewrite Hform. now destruct (closestForm d (ref e)). }
  assert (Hlist : getTabbableElements root
                  = (tabbableRefs A ++ ref e :: tabbableRefs B)%list).
  { rewrite getTabbableElements_tabbableRefs, Hdesc, tabbableRefs_app.
    unfold tabbableRefs at 2. simpl. now rewrite He. }
  split; [|split].
  - rewrite next_of_list, (fresh_list d (ref e) refs (HookReachable_cacheFresh d refs HR)).
    rewrite Hscope, Hlist.
    rewrite findIndex_first by now apply not_in_tabbableRefs.
    apply head_lookup_after.
  - rewrite getNextFocusable_formula. fold root.
    rewrite order_of_root. cbn [indexOfRef].
    destruct (Nat.eqb_spec (ref (elem root)) (ref e)) as [Heq|_];
      [contradiction|].
    rewrite Hdesc, indexOfRef_first by assumption.
    replace (S (length A)) with (length A + 1)%nat by lia.
    rewrite drop_app_add. cbn [drop].
    rewrite getTabbableElements_tabbableRefs, Hdesc. reflexivity.
  - rewrite Hlist. now destruct (tabbableRefs A).
Qed.

End TwoApproaches.

(* ------------------------------------------------------------------ *)
(** ** [approach3/Combobox3.tsx]: the other handlers *)

Section Combobox3Handlers.
Import Combobox3 Combobox3State Combobox3Facts.

Lemma mount_closed P : isOpen (mount P) = false.
Proof. unfold mount, valueEffect, initialCells. now destruct (value_prop P). Qed.

Lemma task_disabled P s ev :
  isDisabled P = true -> isOpen s = false -> task P s ev = (s, []).
Proof.
  intros Hd Ho. destruct ev as [e | v | | index | inside].
  - rewrite task_keydown. now rewrite keydown_disabled.
  - unfold task, dispatch. now rewrite Hd.
  - unfold task, dispatch. now rewrite Hd.
  - unfold task, dispatch, view; cbn [popup]. now rewrite Ho.
  - unfold task, dispatch, handleClickOutside. now rewrite Ho.
Qed.

(** X10.  A widget mounted with the disabled flag never leaves the state it
    was mounted in, whatever events arrive (key, change, click, click on a
    popup item, mouse-down anywhere): its popup is never rendered, the input
    is marked disabled and carries no [aria-activedescendant]. *)
Theorem disabled_widget_stays_as_mounted :
  forall (P : ComboboxProps) (s : Cells),
    isDisabled P = true -> Reachable P s ->
    s = mount P
    /\ popup (view P s) = None
    /\ aria_expanded (view P s) = false
    /\ aria_activedescendant (view P s) = None
    /\ input_disabled (view P s) = true.
Proof.
  intros P s Hd HR.
  assert (Hs : s = mount P).
  { induction HR as [|s ev _ IH]; [reflexivity|].
    rewrite IH, task_disabled; auto using mount_closed. }
  subst s. pose proof (mount_closed P) as Ho.
  unfold view; cbn. rewrite Ho, Hd. repeat split.
  now destruct activeDescendantId.
Qed.



(** X12.  In an enabled widget a click on the input flips the open flag,
    puts the highlight on the first item, keeps the text and invokes no
    callback; the toggling flag is down again when the turn ends.  Two
    clicks bring the open flag back. *)
Theorem click_toggles_the_popup :
  forall (P : ComboboxProps) (s : Cells),
    isDisabled P = false ->
    fst (task P s Click) = mkCells (negb (isOpen s)) (inputValue s) 0 false
    /\ List.filter isCallback (snd (task P s Click)) = []
    /\ fst (task P (fst (task P s Click)) Click)
       = mkCells (isOpen s) (inputValue s) 0 false.
Proof.
  intros P s Hd. unfold task, dispatch, handleToggle. rewrite Hd.
  destruct s as [[|] w i t]; repeat split.
Qed.

(** X13.  A mouse-down inside the combobox changes nothing; one outside
    closes the popup and touches nothing else, whether or not the widget is
    disabled: unlike Escape it keeps the highlighted index, so in an enabled
    widget ArrowDown then reopens the popup exactly as it was. *)
Theorem mouse_down_outside_closes_and_keeps_the_highlight :
  forall (P : ComboboxProps) (s : Cells) (e : KeyboardEvent),
    task P s (MouseDown true) = (s, [])
    /\ task P s (MouseDown false)
       = (mkCells false (inputValue s) (highlightedIndex s) (isTogglingRef s), [])
    /\ (isDisabled P = false -> isOpen s = true -> key e = KEYS.ARROW_DOWN ->
        fst (task P (fst (task P s (MouseDown false))) (KeyDown e)) = s).
Proof.
  intros P s e. split; [|split].
  - unfold task, dispatch, handleClickOutside.
    now destruct (isOpen s).
  - unfold task, dispatch, handleClickOutside.
    destruct s as [[|] w i t]; reflexivity.
  - intros Hd Ho Hk. rewrite task_keydown.
    rewrite keydown_ArrowDown by assumption.
    destruct s as [o w i t]; cbn in Ho; subst o. reflexivity.
Qed.

Lemma indexed_lookup {A} (xs : list A) i :
  indexed xs !! i = (fun x => (i, x)) <$> xs !! i.
Proof.
  unfold indexed.
  assert (H : forall a, combine (seq a (length xs)) xs !! i
                        = (fun x => ((a + i)%nat, x)) <$> xs !! i).
  { revert i. induction xs as [|x xs IH]; intros i a; [now destruct i|].
    destruct i as [|i]; cbn.
    - now rewrite Nat.add_0_r.
    - rewrite IH. destruct (xs !! i); cbn; [|reflexivity].
      do 2 f_equal. lia. }
  apply (H 0%nat).
Qed.

Lemma popup3_item opts hi items i item :
  ComboboxPopup opts hi = OptionList items ->
  items !! i = Some item ->
  exists o, opts !! i = Some o
            /\ item = mkOptionView (Some ("option-" +:+ id o))
                                   (Z.eqb (Z.of_nat i) hi) (label o) o.
Proof.
  unfold ComboboxPopup. destruct opts as [|o0 opts0] eqn:E; [discriminate|].
  rewrite <- E. intros H. injection H as <-.
  rewrite list_lookup_fmap, indexed_lookup.
  destruct (_ !! i) as [o|]; cbn; [|discriminate].
  intros H. injection H as <-. now exists o.
Qed.

Lemma popup3_items_of_option opts hi i o :
  opts !! i = Some o ->
  exists items, ComboboxPopup opts hi = OptionList items
    /\ items !! i = Some (mkOptionView (Some ("option-" +:+ id o))
                                       (Z.eqb (Z.of_nat i) hi) (label o) o).
Proof.
  intros H. unfold ComboboxPopup.
  destruct opts as [|o0 opts0] eqn:E; [discriminate|]. rewrite <- E in *.
  eexists. split; [reflexivity|].
  now rewrite list_lookup_fmap, indexed_lookup, H.
Qed.

(** X14.  A click on the item that shows option [o] of the open popup makes
    [o]'s label the input text, closes the popup, resets the highlight and
    reports [o] to [onSelectionChange] (once, when supplied).  The option
    chosen is then among the options the new text filters, so reopening the
    popup shows it.  A click on an item that is not there does nothing. *)
Theorem option_click_selects_that_option :
  forall (P : ComboboxProps) (s : Cells) (index : nat),
    Reachable P s -> isOpen s = true ->
    match filteredOptions P s !! index with
    | Some o =>
        task P s (OptionClick index)
        = (mkCells false (label o) 0 false,
           if onSelectionChange P then [SelectionChange o] else [])
        /\ In o (filteredOptions P (mkCells false (label o) 0 false))
    | None => task P s (OptionClick index) = (s, [])
    end.
Proof.
  intros P s index HR Ho. destruct (Reachable_Inv P s HR) as (Ht & _ & _).
  destruct (filteredOptions P s !! index) as [o|] eqn:Eo.
  - split.
    + destruct (popup3_items_of_option _ (highlightedIndex s) _ _ Eo)
        as (items & Hp & Hi).
      unfold task, dispatch, view; cbn [popup]. rewrite Ho, Hp, Hi.
      cbn [ov_option]. unfold handleOptionSelect, optionalCall.
      destruct s as [op w i t]; cbn in Ht; subst t.
      now destruct (onSelectionChange P).
    + apply list_elem_of_lookup_2, list_elem_of_In in Eo.
      unfold filteredOptions in *. apply filter_In in Eo as [Hin _].
      apply filter_In. split; [exact Hin|]. cbn. apply includes_refl.
  - unfold task, dispatch, view; cbn [popup]. rewrite Ho.
    destruct (ComboboxPopup _ _) as [|items] eqn:Ep; [reflexivity|].
    destruct (items !! index) as [item|] eqn:Ei; [|reflexivity].
    destruct (popup3_item _ _ _ _ _ Ep Ei) as (o & Hopt & _). congruence.
Qed.

End Combobox3Handlers.

(* ------------------------------------------------------------------ *)
(** ** [approach3/Combobox3.tsx]: what is rendered *)

Section Combobox3View.
Import Combobox3 Combobox3State Combobox3Facts.

(** X15.  In the open popup the item at position [i] shows the [i]-th
    filtered option, with that option's label as text and ["option-"]
    followed by its id as element id; it is highlighted exactly when [i] is
    the highlighted index, and the highlighted item is the one the input
    names in [aria-activedescendant]. *)
Theorem highlighted_item_is_the_active_descendant :
  forall (P : ComboboxProps) (s : Cells) (items : list OptionView)
         (i : nat) (item : OptionView),
    popup (view P s) = Some (OptionList items) ->
    items !! i = Some item ->
    filteredOptions P s !! i = Some (ov_option item)
    /\ ov_text item = label (ov_option item)
    /\ ov_id item = Some ("option-" +:+ id (ov_option item))
    /\ (ov_highlighted item = true <-> Z.of_nat i = highlightedIndex s)
    /\ (ov_highlighted item = true ->
        aria_activedescendant (view P s) = ov_id item).
Proof.
  intros P s items i item Hp Hi. unfold view in Hp; cbn [popup] in Hp.
  destruct (isOpen s) eqn:Ho; [|discriminate]. injection Hp as Hp.
  destruct (popup3_item _ _ _ _ _ Hp Hi) as (o & Hopt & ->). cbn.
  repeat split; try assumption.
  - now apply Z.eqb_eq.
  - now apply Z.eqb_eq.
  - intros Hh. apply Z.eqb_eq in Hh.
    unfold view, activeDescendantId; cbn [aria_activedescendant].
    assert (Hlen : (i < length (filteredOptions P s))%nat)
      by (apply lookup_lt_is_Some; eauto).
    assert (Hidx : js_index (filteredOptions P s) (highlightedIndex s) = Some o).
    { unfold js_index. rewrite <- Hh.
      destruct (Z.ltb_spec (Z.of_nat i) 0); [lia|]. now rewrite Nat2Z.id. }
    rewrite Hidx, Ho.
    replace (0 <? Z.of_nat (length (filteredOptions P s)))%Z with true
      by (symmetry; apply Z.ltb_lt; lia).
    replace (0 <=? highlightedIndex s)%Z with true
      by (symmetry; apply Z.leb_le; lia).
    reflexivity.
Qed.

Lemma NoDup_map_filter {A B} (f : A -> B) (p : A -> bool) l :
  NoDup (map f l) -> NoDup (map f (List.filter p l)).
Proof.
  induction l as [|x l IH]; simpl; intros H; [exact H|].
  apply NoDup_cons in H as [Hx Hl]. destruct (p x); simpl; [|now apply IH].
  apply NoDup_cons. split; [|now apply IH].
  intros Hin. apply Hx. apply list_elem_of_In in Hin. apply list_elem_of_In.
  rewrite in_map_iff in *. destruct Hin as (y & Hy & Hf).
  apply filter_In in Hf as [Hf _]. now exists y.
Qed.

Lemma NoDup_map_injective {A B} (f : A -> B) l :
  (forall x y, f x = f y -> x = y) -> NoDup l -> NoDup (map f l).
Proof.
  intros Hf. induction l as [|x l IH]; simpl; intros H; [constructor|].
  apply NoDup_cons in H as [Hx Hl]. apply NoDup_cons. split; [|now apply IH].
  intros Hin. apply Hx. apply list_elem_of_In in Hin. apply list_elem_of_In.
  rewrite in_map_iff in Hin. destruct Hin as (y & Hy & Hin).
  now rewrite (Hf _ _ Hy) in Hin.
Qed.

Lemma popup3_ids opts hi items :
  ComboboxPopup opts hi = OptionList items ->
  map ov_id items = map (fun o => Some ("option-" +:+ id o)) opts.
Proof.
  unfold ComboboxPopup. destruct opts as [|o0 opts0] eqn:E; [discriminate|].
  rewrite <- E. intros H. injection H as <-.
  rewrite map_map.
  transitivity (map (fun p : nat * ComboboxOption =>
                       Some ("option-" +:+ id (snd p))) (indexed opts)).
  - apply map_ext. now intros [i o].
  - rewrite <- (map_map snd (fun o => Some ("option-" +:+ id o))).
    unfold indexed. now rewrite map_snd_combine_seq.
Qed.

(** X16.  When the options given to the widget have pairwise different
    ids, the items of the popup have pairwise different element ids. *)
Theorem popup_items_have_distinct_ids :
  forall (P : ComboboxProps) (s : Cells) (items : list OptionView),
    NoDup (map id (options P)) ->
    popup (view P s) = Some (OptionList items) ->
    NoDup (map ov_id items).
Proof.
  intros P s items Hnd Hp. unfold view in Hp; cbn [popup] in Hp.
  destruct (isOpen s); [|discriminate]. injection Hp as Hp.
  rewrite (popup3_ids _ _ _ Hp).
  assert (Hf : NoDup (map id (filteredOptions P s)))
    by (unfold filteredOptions; now apply NoDup_map_filter).
  rewrite <- (map_map id (fun x => Some ("option-" +:+ x))).
  apply NoDup_map_injective; [|exact Hf].
  intros x y H. now injection H.
Qed.

End Combobox3View.

(* ------------------------------------------------------------------ *)
(** ** [src/utils/keyboard.ts] and the key handler *)

Section Keys.
Import Combobox3 Combobox3State Combobox3Facts.

Lemma shouldPreventDefault_spec k :
  shouldPreventDefault k = true
  <-> k = KEYS.ARROW_UP \/ k = KEYS.ARROW_DOWN \/ k = KEYS.ENTER \/ k = KEYS.ESCAPE.
Proof.
  unfold shouldPreventDefault, array_includes. cbn [existsb].
  rewrite !orb_true_iff, !String.eqb_eq. intuition discriminate.
Qed.

Lemma isNavigationKey_spec k :
  isNavigationKey k = true
  <-> k = KEYS.ARROW_UP \/ k = KEYS.ARROW_DOWN \/ k = KEYS.ENTER
      \/ k = KEYS.ESCAPE \/ k = KEYS.TAB \/ k = KEYS.SPACE.
Proof.
  unfold isNavigationKey, array_includes. cbn [existsb].
  rewrite !orb_true_iff, !String.eqb_eq. intuition discriminate.
Qed.

(** X17.  The key handler leaves every key that is not a navigation key
    alone (same cells, no effect), so ordinary typing passes through.
    Every key whose default the handler prevents is a navigation key, and
    the handler calls [preventDefault] exactly when the widget is enabled and
    [shouldPreventDefault] says so: never for Tab, a letter or the space. *)
Theorem key_handler_prevents_default_only_on_its_four_keys :
  forall (P : ComboboxProps) (s c : Cells) (e : KeyboardEvent),
    (isNavigationKey (key e) = false -> handleKeyDown P s e c = (tt, c, []))
    /\ (shouldPreventDefault (key e) = true -> isNavigationKey (key e) = true)
    /\ (In PreventDefault (effectsOf (handleKeyDown P s e c))
        <-> isDisabled P = false /\ shouldPreventDefault (key e) = true).
Proof.
  intros P s c e. split; [|split].
  - intros Hn. apply keydown_other; intros Hk;
      assert (isNavigationKey (key e) = true) by (apply isNavigationKey_spec; tauto);
      congruence.
  - rewrite shouldPreventDefault_spec, isNavigationKey_spec. tauto.
  - destruct (isDisabled P) eqn:Hd.
    { rewrite keydown_disabled by assumption. cbn. intuition discriminate. }
    rewrite shouldPreventDefault_spec.
    destruct (key_cases (key e)) as [H|[H|[H|[H|[H|(H1&H2&H3&H4&H5)]]]]].
    + rewrite keydown_ArrowDown by assumption. cbn. tauto.
    + rewrite keydown_ArrowUp by assumption. cbn. tauto.
    + rewrite keydown_Enter by assumption.
      destruct (js_index _ _); [destruct (isOpen s)|]; cbn; tauto.
    + rewrite keydown_Escape by assumption. cbn. tauto.
    + rewrite keydown_Tab by assumption. cbn. rewrite H.
      intuition discriminate.
    + rewrite keydown_other by assumption. cbn. tauto.
Qed.

(** X18.  In every state the widget reaches the toggling flag is down, and
    the highlighted index names one of the filtered options whenever there
    is one, the popup being open or not; when nothing matches the index is 0
    or -1 (ArrowUp on an empty list stores -1). *)
Theorem highlighted_index_stays_on_the_filtered_list :
  forall (P : ComboboxProps) (s : Cells),
    Reachable P s ->
    isTogglingRef s = false
    /\ (filteredOptions P s <> [] ->
        (0 <= highlightedIndex s < Z.of_nat (length (filteredOptions P s)))%Z
        /\ exists o, js_index (filteredOptions P s) (highlightedIndex s) = Some o)
    /\ (filteredOptions P s = [] ->
        highlightedIndex s = 0%Z \/ highlightedIndex s = (-1)%Z).
Proof.
  intros P s HR. destruct (Reachable_Inv P s HR) as (Ht & _ & Hi).
  split; [exact Ht|]. split.
  - intros Hne.
    assert (Hn : (0 < length (filteredOptions P s))%nat)
      by (destruct (filteredOptions P s); [congruence | simpl; lia]).
    destruct Hi as [Hi | [Hz _]]; [|lia].
    split; [exact Hi|]. unfold js_index.
    destruct (Z.ltb_spec (highlightedIndex s) 0); [lia|].
    apply lookup_lt_is_Some_2. lia.
  - intros He. rewrite He in Hi. destruct Hi as [Hi | [_ Hi]]; [cbn in Hi; lia|].
    exact Hi.
Qed.

End Keys.

(* ------------------------------------------------------------------ *)
(** ** Tab in the two widgets *)

Section TabKey.
Import Combobox3State.

Lemma Combobox1_keydown_Tab d context inputRef P s e c :
  key e = KEYS.TAB ->
  Combobox1.handleKeyDown d context inputRef P s e c
  = (tt,
     if negb (isDisabled P) && isOpen s then closed c else c,
     if isDisabled P then []
     else match inputRef with
          | Some currentElement =>
              match (if shiftKey e
                     then getPreviousFocusable context currentElement
                     else getNextFocusable context currentElement) with
              | Some next =>
                  if Combobox1.isHTMLElementRef d next
                  then [PreventDefault; Focus next]
                  else []
              | None => []
              end
          | None => []
          end).
Proof.
  intros Hk. unfold Combobox1.handleKeyDown. rewrite Hk.
  destruct (isDisabled P); [reflexivity|].
  destruct c as [co cv ci ct], (isOpen s), inputRef as [cur|]; try reflexivity;
    cbn; destruct (if shiftKey e then _ else _) as [next|]; try reflexivity;
    now destruct (Combobox1.isHTMLElementRef d next).
Qed.

Lemma tabbableRefs_In l r :
  In r (tabbableRefs l) -> exists el, In el l /\ ref el = r /\ isTabbable el = true.
Proof.
  unfold tabbableRefs. rewrite in_map_iff. intros (el & Hr & Hf).
  apply filter_In in Hf as [Hin Ht]. now exists el.
Qed.

Lemma last_In {A} (l : list A) x : last l = Some x -> In x l.
Proof.
  intros H. apply last_Some in H as [l' ->]. apply in_app_iff. right. now left.
Qed.

Lemma tabbableRefs_take_In k l r :
  In r (tabbableRefs (take k l)) -> In r (tabbableRefs l).
Proof.
  intros H. rewrite <- (take_drop k l), tabbableRefs_app, in_app_iff. now left.
Qed.

Lemma getNextFocusable_In d rootElement containerRef current r :
  FocusableProvider.getNextFocusable d rootElement containerRef current = Some r ->
  In r (tabbableRefs (preorder (FocusableProvider.getRoot d rootElement containerRef))).
Proof.
  rewrite getNextFocusable_formula.
  set (root := FocusableProvider.getRoot d rootElement containerRef).
  intros H.
  assert (Hd : In r (tabbableRefs (descendants root))).
  { destruct (tabbableRefs (drop _ (descendants root))) as [|n ns] eqn:E; cbn in H.
    - destruct (tabbableRefs (descendants root)); [discriminate|].
      injection H as ->. now left.
    - injection H as ->. eapply tabbableRefs_drop_In. rewrite E. now left. }
  apply (tabbableRefs_drop_In 1). now rewrite order_of_root.
Qed.

Lemma getPreviousFocusable_In d rootElement containerRef current r :
  FocusableProvider.getPreviousFocusable d rootElement containerRef current = Some r ->
  In r (tabbableRefs (preorder (FocusableProvider.getRoot d rootElement containerRef))).
Proof.
  unfold FocusableProvider.getPreviousFocusable. cbv zeta.
  set (w := setCurrentNode
              (createTreeWalker
                 (FocusableProvider.getRoot d rootElement containerRef)) current).
  pose proof (previousNode_fst w) as Hf.
  pose proof (previousNode_none_same w) as Hn.
  destruct (previousNode w) as [[p|] w1]; cbn [fst snd] in *.
  - intros H. injection H as <-.
    destruct (_ <? _)%nat; [|discriminate].
    symmetry in Hf. apply last_In in Hf.
    now apply tabbableRefs_take_In in Hf.
  - rewrite (Hn eq_refl).
    rewrite (wrap_to_last d rootElement containerRef w eq_refl).
    intros H. apply last_In in H.
    apply (tabbableRefs_drop_In 1). now rewrite order_of_root.
Qed.

(** X19.  On Tab both widgets end in the same cells: an enabled widget
    closes an open popup and resets the highlight, and nothing else changes.
    [Combobox3] leaves the event alone.  [Combobox1], given the context of
    its provider, either leaves it alone too or prevents the default and
    focuses one element, and that element is a tabbable element of the
    provider's root subtree. *)
Theorem tab_closes_alike_and_combobox1_focuses_a_tabbable_element :
  forall (d : Document) (containerRef inputRef : option ElemRef)
         (P : ComboboxProps) (s c : Cells) (e : KeyboardEvent),
    key e = KEYS.TAB ->
    cellsAfter (Combobox1.handleKeyDown d
                  (FocusableProvider.value d None containerRef) inputRef P s e c)
    = cellsAfter (Combobox3.handleKeyDown P s e c)
    /\ cellsAfter (Combobox3.handleKeyDown P s e c)
       = (if negb (isDisabled P) && isOpen s
          then mkCells false (inputValue c) 0 (isTogglingRef c) else c)
    /\ effectsOf (Combobox3.handleKeyDown P s e c) = []
    /\ (effectsOf (Combobox1.handleKeyDown d
                     (FocusableProvider.value d None containerRef) inputRef P s e c)
        = []
        \/ exists el,
             In el (preorder (FocusableProvider.getRoot d None containerRef))
             /\ isTabbable el = true
             /\ effectsOf (Combobox1.handleKeyDown d
                             (FocusableProvider.value d None containerRef)
                             inputRef P s e c)
                = [PreventDefault; Focus (ref el)]).
Proof.
  intros d containerRef inputRef P s c e Hk.
  rewrite Combobox1_keydown_Tab, Combobox3Facts.keydown_Tab by assumption.
  unfold cellsAfter, effectsOf; cbn [fst snd]. repeat split.
  destruct (isDisabled P); [now left|].
  destruct inputRef as [cur|]; [|now left].
  unfold FocusableProvider.value; cbn [getNextFocusable getPreviousFocusable].
  destruct (shiftKey e).
  - destruct (FocusableProvider.getPreviousFocusable d None containerRef cur)
      as [next|] eqn:E; [|now left].
    destruct (Combobox1.isHTMLElementRef d next); [|now left].
    apply getPreviousFocusable_In, tabbableRefs_In in E as (el & Hin & <- & Ht).
    right. now exists el.
  - destruct (FocusableProvider.getNextFocusable d None containerRef cur)
      as [next|] eqn:E; [|now left].
    destruct (Combobox1.isHTMLElementRef d next); [|now left].
    apply getNextFocusable_In, tabbableRefs_In in E as (el & Hin & <- & Ht).
    right. now exists el.
Qed.

End TabKey.

(* ------------------------------------------------------------------ *)
(** ** The filter and the text *)

Section FilterProperties.
Import JsString Combobox3.






End FilterProperties.

(* ------------------------------------------------------------------ *)
(** ** Going forward and back in the focus context *)

Section ThereAndBack.
Variable d : Document.
Variable rootElement containerRef : option ElemRef.

Let root := FocusableProvider.getRoot d rootElement containerRef.

Lemma getPreviousFocusable_formula current :
  FocusableProvider.getPreviousFocusable d rootElement containerRef current
  = match (if (indexOfRef current (preorder root) <? length (preorder root))%nat
           then last (tabbableRefs
                        (take (indexOfRef current (preorder root)) (preorder root)))
           else None) with
    | Some p => Some p
    | None => last (tabbableRefs (descendants root))
    end.
Proof.
  unfold FocusableProvider.getPreviousFocusable. cbv zeta. fold root.
  set (w := setCurrentNode (createTreeWalker root) current).
  pose proof (previousNode_fst w) as Hf.
  pose proof (previousNode_none_same w) as Hn.
  change (tw_pos w) with (indexOfRef current (preorder root)) in Hf.
  change (tw_order w) with (preorder root) in Hf.
  destruct (previousNode w) as [[p|] w1]; cbn [fst snd] in *; rewrite <- Hf.
  - reflexivity.
  - rewrite (Hn eq_refl). apply (wrap_to_last d rootElement containerRef w eq_refl).
Qed.

Lemma filter_first_split {A} (p : A -> bool) l x xs :
  List.filter p l = x :: xs ->
  exists l1 l2, l = (l1 ++ x :: l2)%list /\ List.filter p l1 = []
                /\ p x = true /\ List.filter p l2 = xs.
Proof.
  induction l as [|y l IH]; simpl; [discriminate|].
  destruct (p y) eqn:Ey.
  - intros H. injection H as -> <-. now exists [], l.
  - intros H. destruct (IH H) as (l1 & l2 & -> & H1 & Hx & H2).
    exists (y :: l1), l2. simpl. now rewrite Ey.
Qed.

Lemma tabbableRefs_first_split l n ns :
  tabbableRefs l = n :: ns ->
  exists l1 en l2, l = (l1 ++ en :: l2)%list /\ tabbableRefs l1 = []
                   /\ ref en = n /\ isTabbable en = true.
Proof.
  unfold tabbableRefs. intros H.
  destruct (List.filter isTabbable l) as [|en rest] eqn:E; [discriminate|].
  injection H as <- _.
  destruct (filter_first_split _ _ _ _ E) as (l1 & l2 & -> & H1 & Hx & _).
  exists l1, en, l2. now rewrite H1.
Qed.

Lemma NoDup_refs_first (pre : list Element) en post :
  NoDup (map ref (pre ++ en :: post)) -> ~ In (ref en) (map ref pre).
Proof.
  rewrite map_app. cbn [map]. intros H Hin.
  apply NoDup_app in H as (_ & H & _).
  apply (H (ref en)); [now apply list_elem_of_In | left].
Qed.

(** The previous tabbable of the element that follows the prefix [pre]. *)
Lemma previous_after_prefix (pre : list Element) en post :
  preorder root = (pre ++ en :: post)%list ->
  NoDup (map ref (preorder root)) ->
  FocusableProvider.getPreviousFocusable d rootElement containerRef (ref en)
  = match last (tabbableRefs pre) with
    | Some p => Some p
    | None => last (tabbableRefs (descendants root))
    end.
Proof.
  intros Hord Hnd. rewrite getPreviousFocusable_formula, Hord.
  rewrite Hord in Hnd. apply NoDup_refs_first in Hnd.
  rewrite indexOfRef_first by assumption.
  rewrite length_app. cbn [length].
  replace (length pre <? length pre + S (length post))%nat with true
    by (symmetry; apply Nat.ltb_lt; lia).
  now rewrite take_app_length.
Qed.

(** X21.  Shift+Tab undoes Tab in the focus context.  When the elements of
    the root's subtree are pairwise different and the root itself is not
    tabbable, [getNextFocusable] takes a tabbable descendant of the root to
    some element, and [getPreviousFocusable] takes that element back to it,
    also across the wrap from the last tabbable element to the first. *)
Theorem previous_focusable_undoes_next_focusable :
  forall (A : list Element) (e : Element) (B : list Element),
    NoDup (map ref (preorder (FocusableProvider.getRoot d rootElement containerRef))) ->
    isTabbable (elem (FocusableProvider.getRoot d rootElement containerRef)) = false ->
    descendants (FocusableProvider.getRoot d rootElement containerRef)
    = (A ++ e :: B)%list ->
    isTabbable e = true ->
    exists n,
      FocusableProvider.getNextFocusable d rootElement containerRef (ref e) = Some n
      /\ FocusableProvider.getPreviousFocusable d rootElement containerRef n
         = Some (ref e).
Proof.
  fold root. intros A e B Hnd Hroot Hdesc He.
  assert (Hord : preorder root = ((elem root :: A) ++ e :: B)%list)
    by (rewrite order_of_root, Hdesc; reflexivity).
  assert (Hte : tabbableRefs [e] = [ref e])
    by (unfold tabbableRefs; simpl; now rewrite He).
  assert (Htr : tabbableRefs [elem root] = [])
    by (unfold tabbableRefs; simpl; now rewrite Hroot).
  assert (Hnext : FocusableProvider.getNextFocusable d rootElement containerRef (ref e)
                  = match head (tabbableRefs B) with
                    | Some n => Some n
                    | None => head (tabbableRefs (descendants root))
                    end).
  { rewrite getNextFocusable_formula. fold root. rewrite Hord.
    rewrite indexOfRef_first
      by (apply (NoDup_refs_first _ e B); now rewrite <- Hord).
    cbn [length]. rewrite Hdesc.
    replace (S (length A)) with (length A + 1)%nat by lia.
    now rewrite drop_app_add. }
  rewrite Hnext.
  destruct (tabbableRefs B) as [|n ns] eqn:EB; cbn [head].
  - (* nothing follows: the walker wraps to the first tabbable descendant *)
    assert (Hlast : last (tabbableRefs (descendants root)) = Some (ref e)).
    { rewrite Hdesc, tabbableRefs_app.
      change (e :: B) with ([e] ++ B)%list.
      rewrite tabbableRefs_app, Hte, EB, app_nil_r. apply last_snoc. }
    destruct (tabbableRefs A) as [|f fs] eqn:EA.
    + exists (ref e). split.
      * rewrite Hdesc, tabbableRefs_app, EA.
        change (e :: B) with ([e] ++ B)%list.
        now rewrite tabbableRefs_app, Hte.
      * rewrite (previous_after_prefix (elem root :: A) e B Hord Hnd).
        change (elem root :: A) with ([elem root] ++ A)%list.
        now rewrite tabbableRefs_app, Htr, EA.
    + destruct (tabbableRefs_first_split _ _ _ EA) as (A1 & ef & A2 & -> & H1 & <- & Hf).
      exists (ref ef). split.
      * rewrite Hdesc, tabbableRefs_app, EA. reflexivity.
      * assert (Hord' : preorder root
                        = ((elem root :: A1) ++ ef :: (A2 ++ e :: B))%list)
          by (rewrite Hord; cbn; now rewrite <- app_assoc).
        rewrite (previous_after_prefix _ ef _ Hord' Hnd).
        change (elem root :: A1) with ([elem root] ++ A1)%list.
        now rewrite tabbableRefs_app, Htr, H1.
  - destruct (tabbableRefs_first_split _ _ _ EB) as (B1 & en & B2 & -> & H1 & <- & Hn).
    exists (ref en). split; [reflexivity|].
    assert (Hord' : preorder root
                    = ((elem root :: A ++ e :: B1) ++ en :: B2)%list)
      by (rewrite Hord; cbn; rewrite <- app_assoc; reflexivity).
    rewrite (previous_after_prefix _ en _ Hord' Hnd).
    change (elem root :: A ++ e :: B1)
      with ([elem root] ++ A ++ [e] ++ B1)%list.
    rewrite !tabbableRefs_app, Htr, Hte, H1, app_nil_r. cbn [app].
    now rewrite last_snoc.
Qed.

End ThereAndBack.

(* ------------------------------------------------------------------ *)
(** ** The further properties at work on the sample data *)

Section FurtherSamples.
Import useFocusManagement HookRuns.

Lemma first_input_is_listed_and_enabled :
  In 1%nat (getTabbableElements formNode)
  /\ exists e, In e (descendants formNode) /\ ref e = 1%nat
               /\ hasAttribute e "disabled" = false
               /\ getAttribute e "tabindex" <> Some "-1"
               /\ matches_TABBABLE_SELECTOR e = true.
Proof.
  assert (H : In 1%nat (getTabbableElements formNode)) by (now left).
  split; [exact H|].
  destruct (getTabbableElements_are_the_tabbable_descendants formNode) as [_ Hall].
  exact (Hall 1%nat H).
Defined.

Lemma next_of_the_last_input_wraps :
  (preorder (FocusableProvider.getRoot formBefore None (Some 1))
   = ([plain 10 "form"; firstInput] ++ secondInput :: [])%list
   /\ ~ In (ref secondInput) (map ref [plain 10 "form"; firstInput]))
  /\ FocusableProvider.getNextFocusable formBefore None (Some 1) (ref secondInput)
     = Some 1%nat.
Proof.
  assert (H1 : preorder (FocusableProvider.getRoot formBefore None (Some 1))
               = ([plain 10 "form"; firstInput] ++ secondInput :: [])%list)
    by reflexivity.
  assert (H2 : ~ In (ref secondInput) (map ref [plain 10 "form"; firstInput]))
    by (cbn; intros [H|[H|[]]]; discriminate).
  split; [now split|].
  exact (getNextFocusable_is_the_next_tabbable_with_wrap formBefore None (Some 1)
           _ _ _ H1 H2).
Defined.

Lemma next_focusable_is_listed :
  (In 2%nat (map ref (preorder
                        (FocusableProvider.getRoot formBefore None (Some 1))))
   /\ FocusableProvider.getNextFocusable formBefore None (Some 1) 2 = Some 1%nat)
  /\ In 1%nat (getTabbableElements
                 (FocusableProvider.getRoot formBefore None (Some 1))).
Proof.
  assert (H0 : In 2%nat (map ref (preorder
                   (FocusableProvider.getRoot formBefore None (Some 1)))))
    by (right; right; now left).
  split; [split; [exact H0 | reflexivity]|].
  destruct (getNextFocusable_inside_the_root_is_null_only_without_tabbables
              formBefore None (Some 1) 2 H0) as [_ H].
  apply H. reflexivity.
Defined.

Lemma previous_of_the_first_input_wraps :
  (preorder (FocusableProvider.getRoot formBefore None (Some 1))
   = ([plain 10 "form"] ++ firstInput :: [secondInput])%list
   /\ ~ In (ref firstInput) (map ref [plain 10 "form"]))
  /\ FocusableProvider.getPreviousFocusable formBefore None (Some 1) (ref firstInput)
     = Some 2%nat.
Proof.
  assert (H1 : preorder (FocusableProvider.getRoot formBefore None (Some 1))
               = ([plain 10 "form"] ++ firstInput :: [secondInput])%list)
    by reflexivity.
  assert (H2 : ~ In (ref firstInput) (map ref [plain 10 "form"]))
    by (cbn; intros [H|[]]; discriminate).
  split; [now split|].
  exact (getPreviousFocusable_is_the_previous_tabbable_with_wrap
           formBefore None (Some 1) _ _ _ H1 H2).
Defined.

Lemma servedRefs_reachable : HookReachable formBefore servedRefs.
Proof. unfold servedRefs. apply hook_next, hook_initial. Defined.

Lemma served_hook_still_follows_the_document :
  HookReachable formBefore servedRefs
  /\ fst (getAllTabbables formBefore 1 servedRefs) = scopeTabbables formBefore 1
  /\ fst (getNextTabbable formBefore 1 servedRefs) = Some 2%nat.
Proof.
  split; [exact servedRefs_reachable|].
  destruct (hook_follows_document_order_on_an_unchanged_document
              formBefore 1 servedRefs servedRefs_reachable) as (H1 & H2 & _).
  split; [exact H1|].
  apply (H2 [] 2%nat []); [reflexivity | intros []].
Defined.

Lemma second_input_goes_back_to_the_first :
  (NoDup (fst (getAllTabbables formBefore 1 initialRefs))
   /\ getClosestForm formBefore 2 = getClosestForm formBefore 1
   /\ fst (getNextTabbable formBefore 1 initialRefs) = Some 2%nat)
  /\ fst (getPreviousTabbable formBefore 2
            (snd (getNextTabbable formBefore 1 initialRefs))) = Some 1%nat.
Proof.
  assert (H1 : NoDup (fst (getAllTabbables formBefore 1 initialRefs))).
  { apply (bool_decide_unpack _). vm_compute. exact I. }
  split; [repeat split; [exact H1 | reflexivity..]|].
  destruct (next_and_previous_tabbable_undo_each_other
              formBefore 1 2 initialRefs H1 eq_refl) as [H _].
  apply H. reflexivity.
Defined.

Lemma both_approaches_go_from_the_first_input_to_the_second :
  (HookReachable formBefore initialRefs
   /\ closestForm formBefore 1 = closestForm formBefore (ref firstInput)
   /\ descendants (FocusableProvider.getRoot formBefore None (Some 1))
      = ([] ++ firstInput :: [secondInput])%list
   /\ ~ In (ref firstInput) (map ref [])
   /\ ref (elem (FocusableProvider.getRoot formBefore None (Some 1)))
      <> ref firstInput
   /\ isTabbable firstInput = true)
  /\ fst (getNextTabbable formBefore (ref firstInput) initialRefs) = Some 2%nat
  /\ FocusableProvider.getNextFocusable formBefore None (Some 1) (ref firstInput)
     = Some 2%nat.
Proof.
  assert (H0 : HookReachable formBefore initialRefs) by apply hook_initial.
  assert (H4 : ~ In (ref firstInput) (map ref [])) by (intros []).
  assert (H5 : ref (elem (FocusableProvider.getRoot formBefore None (Some 1)))
               <> ref firstInput) by discriminate.
  split; [repeat split; try reflexivity; assumption|].
  destruct (next_focusable_and_next_tabbable_differ_only_at_the_end
              formBefore 1 initialRefs [] firstInput [secondInput]
              H0 eq_refl eq_refl H4 H5 eq_refl) as (Ha & Hb & _).
  split; [exact Ha | exact Hb].
Defined.

Lemma disabled_sample_stays_as_mounted :
  (isDisabled disabledProps = true
   /\ Combobox3.Reachable disabledProps
        (fst (Combobox3.task disabledProps (Combobox3.mount disabledProps) Click)))
  /\ fst (Combobox3.task disabledProps (Combobox3.mount disabledProps) Click)
     = Combobox3.mount disabledProps.
Proof.
  assert (HR : Combobox3.Reachable disabledProps
                 (fst (Combobox3.task disabledProps
                         (Combobox3.mount disabledProps) Click)))
    by apply Combobox3.reach_task, Combobox3.reach_mount.
  split; [split; [reflexivity | exact HR]|].
  apply (disabled_widget_stays_as_mounted disabledProps _ eq_refl HR).
Defined.


Lemma two_clicks_close_again :
  isDisabled mockProps = false
  /\ fst (Combobox3.task mockProps
            (fst (Combobox3.task mockProps (Combobox3.mount mockProps) Click))
            Click)
     = mkCells false "" 0 false.
Proof.
  split; [reflexivity|].
  destruct (click_toggles_the_popup mockProps (Combobox3.mount mockProps) eq_refl)
    as (_ & _ & H).
  exact H.
Defined.

Lemma reopening_after_a_click_outside :
  (isDisabled mockProps = false /\ isOpen openedSecond = true
   /\ key (pressed KEYS.ARROW_DOWN) = KEYS.ARROW_DOWN)
  /\ fst (Combobox3.task mockProps
            (fst (Combobox3.task mockProps openedSecond (MouseDown false)))
            (KeyDown (pressed KEYS.ARROW_DOWN)))
     = openedSecond.
Proof.
  split; [repeat split|].
  destruct (mouse_down_outside_closes_and_keeps_the_highlight
              mockProps openedSecond (pressed KEYS.ARROW_DOWN)) as (_ & _ & H).
  now apply H.
Defined.

Lemma clicking_banana_selects_it :
  (Combobox3.Reachable mockProps opened /\ isOpen opened = true)
  /\ Combobox3.task mockProps opened (OptionClick 1)
     = (mkCells false "Banana" 0 false, [SelectionChange banana])
  /\ In banana (Combobox3.filteredOptions mockProps (mkCells false "Banana" 0 false)).
Proof.
  split; [split; [exact opened_reachable | reflexivity]|].
  exact (option_click_selects_that_option mockProps opened 1
           opened_reachable eq_refl).
Defined.

Lemma first_item_is_the_active_descendant :
  (popup (Combobox3.view mockProps opened) = Some (OptionList openedItems)
   /\ openedItems !! 0%nat
      = Some (mkOptionView (Some "option-1") true "Apple"
                           (mkOption "1" "Apple" "apple")))
  /\ aria_activedescendant (Combobox3.view mockProps opened) = Some "option-1".
Proof.
  split; [now split|].
  destruct (highlighted_item_is_the_active_descendant mockProps opened openedItems
              0 _ eq_refl eq_refl) as (_ & _ & _ & _ & H).
  now apply H.
Defined.

Lemma sample_items_have_distinct_ids :
  (NoDup (map id (options mockProps))
   /\ popup (Combobox3.view mockProps opened) = Some (OptionList openedItems))
  /\ NoDup (map ov_id openedItems).
Proof.
  assert (H1 : NoDup (map id (options mockProps))).
  { apply (bool_decide_unpack _). vm_compute. exact I. }
  split; [now split|].
  exact (popup_items_have_distinct_ids mockProps opened openedItems H1 eq_refl).
Defined.

Lemma a_letter_passes_through :
  isNavigationKey (key (pressed "a")) = false
  /\ Combobox3.handleKeyDown mockProps opened (pressed "a") opened
     = (tt, opened, []).
Proof.
  split; [reflexivity|].
  destruct (key_handler_prevents_default_only_on_its_four_keys
              mockProps opened opened (pressed "a")) as (H & _).
  now apply H.
Defined.

Lemma highlight_is_on_the_list_after_arrow_down :
  (Combobox3.Reachable mockProps openedSecond
   /\ Combobox3.filteredOptions mockProps openedSecond <> [])
  /\ exists o,
       js_index (Combobox3.filteredOptions mockProps openedSecond)
                (highlightedIndex openedSecond) = Some o.
Proof.
  assert (H : Combobox3.filteredOptions mockProps openedSecond <> [])
    by discriminate.
  split; [split; [exact openedSecond_reachable | exact H]|].
  destruct (highlighted_index_stays_on_the_filtered_list
              mockProps openedSecond openedSecond_reachable) as (_ & Hi & _).
  now destruct (Hi H).
Defined.

Lemma tab_in_the_form_moves_focus_or_not :
  key (pressed KEYS.TAB) = KEYS.TAB
  /\ cellsAfter (Combobox1.handleKeyDown formBefore
                   (FocusableProvider.value formBefore None (Some 1)) (Some 1)
                   mockProps opened (pressed KEYS.TAB) opened)
     = cellsAfter (Combobox3.handleKeyDown mockProps opened (pressed KEYS.TAB) opened).
Proof.
  split; [reflexivity|].
  destruct (tab_closes_alike_and_combobox1_focuses_a_tabbable_element
              formBefore (Some 1) (Some 1) mockProps opened opened
              (pressed KEYS.TAB) eq_refl) as (H & _).
  exact H.
Defined.


Lemma back_from_the_second_input :
  (NoDup (map ref (preorder (FocusableProvider.getRoot formBefore None (Some 1))))
   /\ isTabbable (elem (FocusableProvider.getRoot formBefore None (Some 1))) = false
   /\ descendants (FocusableProvider.getRoot formBefore None (Some 1))
      = ([firstInput] ++ secondInput :: [])%list
   /\ isTabbable secondInput = true)
  /\ exists n,
       FocusableProvider.getNextFocusable formBefore None (Some 1) (ref secondInput)
       = Some n
       /\ FocusableProvider.getPreviousFocusable formBefore None (Some 1) n
          = Some (ref secondInput).
Proof.
  assert (H1 : NoDup (map ref (preorder
                 (FocusableProvider.getRoot formBefore None (Some 1))))).
  { apply (bool_decide_unpack _). vm_compute. exact I. }
  split; [repeat split; try reflexivity; exact H1|].
  exact (previous_focusable_undoes_next_focusable formBefore None (Some 1)
           [firstInput] secondInput [] H1 eq_refl eq_refl eq_refl).
Defined.

End FurtherSamples.

(* ------------------------------------------------------------------ *)
(** ** A click that follows a mouse-down outside *)

Section ClickAfterMouseDown.
Import Combobox3.

(** X22.  Once a mouse-down outside the combobox element has been handled,
    the popup is closed, so a click on any popup item finds no item: the
    state stays as the mouse-down left it (text and highlight kept), no
    option is selected and no callback is invoked. *)
Theorem click_after_mouse_down_outside_selects_nothing :
  forall (P : ComboboxProps) (s : Cells) (index : nat),
    task P (fst (task P s (MouseDown false))) (OptionClick index)
    = (mkCells false (inputValue s) (highlightedIndex s) (isTogglingRef s), []).
Proof.
  intros P s index.
  assert (H : fst (task P s (MouseDown false))
              = mkCells false (inputValue s) (highlightedIndex s) (isTogglingRef s)).
  { unfold task, dispatch, handleClickOutside.
    destruct s as [[|] w i t]; reflexivity. }
  rewrite H. reflexivity.
Qed.

End ClickAfterMouseDown.
